(** * Bounded retry fetch: [retryFetch(url, retries)]

    Shallow embedding of the two implementations of [retryFetch] found in the
    repository: the promise-chaining one (day 13, a recursive [attemptFetch]
    inside a [new Promise] executor) and the async/await one (a [for] loop
    with [try]/[catch]).  The remote call [fetch(url)] is a black box: the
    development quantifies over everything the network may answer.  It also
    covers the two callers of [retryFetch], the MEDIUM 3 scripts that print
    the first five titles, and the counters and hooks of day 15 (closures).

    Numbers are mathematical integers ([Z]); this is exact for the attempt
    counter as long as it stays in the range where JavaScript numbers are
    exact integers. *)

From Equations Require Import Equations.
From Stdlib Require Import ZArith List String Ascii Bool Lia.
From Stdlib Require Import DecimalString DecimalZ.
Import ListNotations.
Local Open Scope string_scope.
Local Open Scope list_scope.
Local Open Scope Z_scope.

(** ** Values *)

(** What [response.json()] decodes to. *)
#[local] Unset Elimination Schemes.
Inductive json : Type :=
| JNull
| JBool (b : bool)
| JNumber (n : Z)
| JString (s : string)
| JArray (items : list json)
| JObject (members : list (string * json)).
#[local] Set Elimination Schemes.

(** How a promise handed out by the runtime settles: fulfilled with a value,
    or rejected with an error of which the code only reads [error.message]. *)
Inductive awaited (A : Type) : Type :=
| Resolved (a : A)
| Thrown (message : string).
Arguments Resolved {A} a.
Arguments Thrown {A} message.

(** A [Response]: the code reads [response.ok] and calls [response.json()]. *)
Record response : Type := mkResponse {
  ok : bool;
  body : awaited json
}.

(** The network: how the i-th remote call (counted from 0) on a resource
    settles. *)
Definition network : Type := string -> nat -> awaited response.

(** What the promise returned by [retryFetch] is fulfilled with. *)
Inductive fulfilment : Type :=
| Undefined
| Data (d : json).

(** What it is rejected with: a primitive string ([reject(`...`)]) or an
    [Error] object ([throw new Error(`...`)]). *)
Inductive reason : Type :=
| Str (s : string)
| Err (message : string).

Inductive settled : Type :=
| Fulfilled (v : fulfilment)
| Rejected (r : reason).

(** ** Effects *)

(** Observable effects, in the order in which they happen. [Resolve] and
    [Reject] are calls of the two functions a [Promise] executor receives. *)
Inductive event : Type :=
| Log (line : string)
| Fetch (url : string)
| Resolve (v : fulfilment)
| Reject (r : reason).

Definition trace : Type := list event.

Definition is_fetch (e : event) : bool :=
  match e with Fetch _ => true | _ => false end.

(** Number of remote calls performed so far. *)
Definition calls (t : trace) : nat := List.length (List.filter is_fetch t).

(** The calls of [resolve] and [reject], oldest first. *)
Fixpoint settlements (t : trace) : list settled :=
  match t with
  | [] => []
  | Resolve v :: t' => Fulfilled v :: settlements t'
  | Reject r :: t' => Rejected r :: settlements t'
  | _ :: t' => settlements t'
  end.

(** A promise takes the first settlement; later calls of [resolve] or
    [reject] are ignored, and with none it stays pending ([None]). *)
Definition promise_state (t : trace) : option settled := hd_error (settlements t).

Definition console_log (line : string) (t : trace) : trace :=
  t ++ [Log line].

(** [fetch(url)]: one remote call, answered by the network. *)
Definition fetch (net : network) (url : string) (t : trace)
  : awaited response * trace :=
  (net url (calls t), t ++ [Fetch url]).

(** A template literal prints an integer in decimal. *)
Definition show (n : Z) : string := NilZero.string_of_int (Z.to_int n).

(** ** Day 13: promise chaining *)

Module PromiseChain.

(** [p.then(f)], where [f] may throw or return another promise. *)
Definition then_ {A B : Type} (p : awaited A) (f : A -> awaited B) : awaited B :=
  match p with
  | Resolved a => f a
  | Thrown message => Thrown message
  end.

(** [response => { if (!response.ok) throw new Error("Bad response.");
                   return response.json(); }] *)
Definition on_response (r : response) : awaited json :=
  if negb (ok r) then Thrown "Bad response." else body r.

Definition attempt_line (url : string) (attempt : Z) : string :=
  ("🔄 Attempt " ++ show attempt ++ " to fetch: " ++ url)%string.

Definition retry_line : string := "⚠️ Failed, retrying...".

Definition failure (retries : Z) (message : string) : reason :=
  Str ("❌ Failed after " ++ show retries ++ " retries: " ++ message)%string.

#[global] Arguments attempt_line : simpl never.
#[global] Arguments failure : simpl never.

Section RetryFetch.

Variable net : network.
Variable url : string.
Variable retries : Z.

Equations? attemptFetch (attempt : Z) (t : trace) : trace
  by wf (Z.to_nat (retries - attempt)) lt :=
  attemptFetch attempt t
    with fetch net url (console_log (attempt_line url attempt) t) => {
    | (p, t1) with then_ p on_response => {
      | Resolved data => t1 ++ [Resolve (Data data)]
      | Thrown message with Z_lt_dec attempt retries => {
        | left _ => attemptFetch (attempt + 1) (console_log retry_line t1)
        | right _ => t1 ++ [Reject (failure retries message)] } } }.
Proof. lia. Qed.

(** The promise returned to the caller, once the chain has run, and the
    effects of the run. *)
Definition retryFetch : option settled * trace :=
  let t := attemptFetch 1 [] in (promise_state t, t).

End RetryFetch.

End PromiseChain.

(** ** Async/await *)

Module AsyncAwait.

Definition attempt_line (url : string) (attempt : Z) : string :=
  ("🔄 Attempt " ++ show attempt ++ " fetching: " ++ url)%string.

Definition retry_line : string := "⚠️ Retry after failure...".

Definition failure (retries : Z) (message : string) : reason :=
  Err ("Failed after " ++ show retries ++ " retries: " ++ message)%string.

#[global] Arguments attempt_line : simpl never.
#[global] Arguments failure : simpl never.

Section RetryFetch.

Variable net : network.
Variable url : string.
Variable retries : Z.

(** The body of the [try] block after the log line: it completes with the
    returned [data], or with the message of what was thrown. *)
Definition try_block (t : trace) : awaited json * trace :=
  match fetch net url t with
  | (Thrown message, t1) => (Thrown message, t1)
  | (Resolved response, t1) =>
      if negb (ok response) then (Thrown "Bad response.", t1)
      else (body response, t1)
  end.

(** [for (let attempt = 1; attempt <= retries; attempt++) { ... }], entered
    with the current value of [attempt]. *)
Equations? loop (attempt : Z) (t : trace) : settled * trace
  by wf (Z.to_nat (retries + 1 - attempt)) lt :=
  loop attempt t with Z_le_dec attempt retries => {
    | right _ => (Fulfilled Undefined, t)
    | left _ with try_block (console_log (attempt_line url attempt) t) => {
      | (Resolved data, t1) => (Fulfilled (Data data), t1)
      | (Thrown message, t1) with Z.eq_dec attempt retries => {
        | left _ => (Rejected (failure retries message), t1)
        | right _ => loop (attempt + 1) (console_log retry_line t1) } } }.
Proof. lia. Qed.

Definition retryFetch : settled * trace := loop 1 [].

End RetryFetch.

End AsyncAwait.

(** ** Vocabulary of the retry policy *)

(** The outcome of one attempt: the decoded payload, or the failure detail
    (the message of what the attempt failed with). *)
Definition attempt_outcome (o : awaited response) : awaited json :=
  match o with
  | Thrown message => Thrown message
  | Resolved r => if ok r then body r else Thrown "Bad response."
  end.

(** The transport itself fails: [fetch(url)] rejects. *)
Definition transport_fails (o : awaited response) : bool :=
  match o with Thrown _ => true | Resolved _ => false end.

(** The transport completes and the status is not ok. *)
Definition status_unsuccessful (o : awaited response) : bool :=
  match o with Thrown _ => false | Resolved r => negb (ok r) end.

(** The transport completes and the status is ok. *)
Definition succeeds (o : awaited response) : bool :=
  match o with Thrown _ => false | Resolved r => ok r end.

(** The attempt does not deliver a payload. *)
Definition failed (o : awaited response) : Prop :=
  exists message, attempt_outcome o = Thrown message.

(** The attempt delivers the payload [d]: the transport completes, the
    status is ok and the body decodes to [d]. *)
Definition delivers (o : awaited response) (d : json) : Prop :=
  exists r, o = Resolved r /\ ok r = true /\ body r = Resolved d.

(** What the network answers to the k-th attempt (k = 1, 2, ...) of a run
    that starts with no remote call made. *)
Definition attempt (net : network) (url : string) (k : nat) : awaited response :=
  net url (Nat.pred k).

(** Reading a field of a rejection reason. A primitive string has none of the
    three fields; an object built by [new Error(text)] has [message], and the
    code assigns nothing else to it. *)
Inductive field : Type := attemptsMade | lastError | message.

Inductive property : Type :=
| Missing
| StringValued (s : string)
| NumberValued (n : Z).

Definition read (r : reason) (f : field) : property :=
  match r, f with
  | Err text, message => StringValued text
  | _, _ => Missing
  end.

(** A failure object of the shape [{ attemptsMade: integer, lastError: string }]. *)
Definition exposes_attempts_and_last_error (r : reason) : Prop :=
  exists n s, read r attemptsMade = NumberValued n /\
              read r lastError = StringValued s.

(** ** Sample networks *)

Definition post : json :=
  JObject [("userId", JNumber 1); ("id", JNumber 1); ("title", JString "sunt aut")].

(** Two failed calls, of the two kinds, then the resource is served. *)
Definition flaky : network := fun _ i =>
  match i with
  | 0%nat => Thrown "Failed to fetch"
  | 1%nat => Resolved (mkResponse false (Resolved JNull))
  | _ => Resolved (mkResponse true (Resolved post))
  end.

(** Every call fails, each in its own way. *)
Definition unreachable : network := fun _ i =>
  match i with
  | 0%nat => Thrown "Failed to fetch"
  | 1%nat => Resolved (mkResponse false (Resolved JNull))
  | _ => Thrown "Load failed"
  end.

(** An error status, then an ok status on a body that is not JSON, then the
    resource. *)
Definition half_served : network := fun _ i =>
  match i with
  | 0%nat => Resolved (mkResponse false (Resolved JNull))
  | 1%nat => Resolved (mkResponse true (Thrown "Unexpected token < in JSON"))
  | _ => Resolved (mkResponse true (Resolved post))
  end.

(** Every call is served. *)
Definition healthy : network := fun _ _ =>
  Resolved (mkResponse true (Resolved post)).

(** The first body served is not JSON; every later call is served. *)
Definition garbled : network := fun _ i =>
  match i with
  | 0%nat => Resolved (mkResponse true (Thrown "Unexpected token < in JSON"))
  | _ => Resolved (mkResponse true (Resolved post))
  end.

(** ** The shape of a run *)

(** The effects of a failed attempt that is followed by another one: the
    attempt line, the remote call and the retry line. [i] counts the failed
    attempts from 0, the attempt counter being [first + i]. *)
Definition chain_round (url : string) (first : Z) (i : nat) : trace :=
  [Log (PromiseChain.attempt_line url (first + Z.of_nat i)); Fetch url;
   Log PromiseChain.retry_line].

Definition loop_round (url : string) (first : Z) (i : nat) : trace :=
  [Log (AsyncAwait.attempt_line url (first + Z.of_nat i)); Fetch url;
   Log AsyncAwait.retry_line].

(** The event is a call of [resolve] or of [reject]. *)
Definition is_settlement (e : event) : bool :=
  match e with Resolve _ | Reject _ => true | _ => false end.

(** ** The callers of [retryFetch] *)

(** An argument handed to [console.log]: a string, a number, the value a
    promise was fulfilled with, or an [Error] object. *)
Inductive printed : Type :=
| PText (s : string)
| PNumber (n : Z)
| PValue (v : fulfilment)
| PError (text : string).

(** One call of [console.log], with its arguments in order. *)
Definition console_line : Type := list printed.

Definition of_reason (r : reason) : printed :=
  match r with
  | Str s => PText s
  | Err text => PError text
  end.

Definition of_property (p : property) : printed :=
  match p with
  | Missing => PValue Undefined
  | StringValued s => PText s
  | NumberValued n => PNumber n
  end.

(** [p.then(v => { console.log(...) })]: the handler runs on a fulfilled
    promise, prints one line and returns [undefined]; a rejected or pending
    promise is passed on. *)
Definition then_print (h : fulfilment -> console_line)
  (p : option settled) (out : list console_line)
  : option settled * list console_line :=
  match p with
  | Some (Fulfilled v) => (Some (Fulfilled Undefined), out ++ [h v])
  | _ => (p, out)
  end.

(** [p.catch(e => { console.log(...) })]. *)
Definition catch_print (h : reason -> console_line)
  (p : option settled) (out : list console_line)
  : option settled * list console_line :=
  match p with
  | Some (Rejected r) => (Some (Fulfilled Undefined), out ++ [h r])
  | _ => (p, out)
  end.

Module Hard5.

Definition resource : string := "https://jsonplaceholder.typicode.com/posts/1".

(** [retryFetch(resource, 3).then(data => console.log("...", data))
                            .catch(err => console.log(err))]:
    the effects of the run, the lines printed after it and the state of the
    promise at the end of the chain. *)
Definition chained (net : network)
  : trace * list console_line * option settled :=
  let (p, t) := PromiseChain.retryFetch net resource 3 in
  let (p1, out1) :=
    then_print (fun data => [PText "✅ HARD 5 Data fetched successfully:";
                             PValue data]) p [] in
  let (p2, out2) := catch_print (fun err => [of_reason err]) p1 out1 in
  (t, out2, p2).

(** [(async () => { try { let data = await retryFetch(resource, 3);
                          console.log("...", data); }
                    catch (error) { console.log("...", error.message); } })()] *)
Definition awaited_in_try (net : network)
  : trace * list console_line * settled :=
  let (s, t) := AsyncAwait.retryFetch net resource 3 in
  match s with
  | Fulfilled data =>
      (t, [[PText "✅ HARD 5 (async/await):"; PValue data]], Fulfilled Undefined)
  | Rejected error =>
      (t, [[PText "❌ HARD 5 Error:"; of_property (read error message)]],
       Fulfilled Undefined)
  end.

End Hard5.

(** ** MEDIUM 3: the first five titles *)

(** What the scripts take from the language runtime when they handle decoded
    data: the string a template literal makes of a value ([None] is
    [undefined]), which may throw, and the messages of the [TypeError]s
    raised by [posts.slice(0, 5).forEach(...)] on a value that is not an
    array and by reading a property of [null]. *)
Record runtime : Type := mkRuntime {
  to_text : option json -> awaited string;
  not_an_array : json -> string;
  property_of_null : string
}.

Module Medium3.

Definition resource : string := "https://jsonplaceholder.typicode.com/posts".

(** An own property of a decoded object; of two members with the same key,
    [JSON.parse] keeps the later one. *)
Fixpoint member (key : string) (members : list (string * json)) : option json :=
  match members with
  | [] => None
  | (k, v) :: rest =>
      match member key rest with
      | Some later => Some later
      | None => if String.eqb k key then Some v else None
      end
  end.

(** [post.title] *)
Definition title_of (rt : runtime) (post : json) : awaited (option json) :=
  match post with
  | JNull => Thrown (property_of_null rt)
  | JObject members => Resolved (member "title" members)
  | _ => Resolved None
  end.

Definition title_line (number : Z) (title : string) : console_line :=
  [PText (show number ++ ". " ++ title)%string].

(** [items.forEach((post, index) => console.log(`${index + 1}. ${post.title}`))],
    entered at [index]; what is thrown ends the iteration. *)
Fixpoint print_titles (rt : runtime) (items : list json) (index : Z)
  (out : list console_line) : awaited unit * list console_line :=
  match items with
  | [] => (Resolved tt, out)
  | post :: rest =>
      match title_of rt post with
      | Thrown m => (Thrown m, out)
      | Resolved title =>
          match to_text rt title with
          | Thrown m => (Thrown m, out)
          | Resolved s =>
              print_titles rt rest (index + 1) (out ++ [title_line (index + 1) s])
          end
      end
  end.

(** [posts.slice(0, 5).forEach(...)] *)
Definition first_five (rt : runtime) (posts : json) (out : list console_line)
  : awaited unit * list console_line :=
  match posts with
  | JArray items => print_titles rt (firstn 5 items) 0 out
  | other => (Thrown (not_an_array rt other), out)
  end.

Definition error_line (m : string) : console_line :=
  [PText "❌ MEDIUM 3 Error:"; PText m].

(** Day 13, promise chaining:
    [fetch(resource).then(response => ...).then(posts => ...).catch(error => ...)].
    The result is the remote calls made and the lines printed. *)
Definition chained (rt : runtime) (net : network) : trace * list console_line :=
  let (p, t) := fetch net resource [] in
  let posts :=
    PromiseChain.then_ p (fun response =>
      if negb (ok response)
      then Thrown "Network error while fetching posts."
      else body response) in
  match posts with
  | Thrown m => (t, [error_line m])
  | Resolved posts =>
      match first_five rt posts [[PText "✅ MEDIUM 3: First 5 post titles:"]] with
      | (Resolved _, out) => (t, out)
      | (Thrown m, out) => (t, out ++ [error_line m])
      end
  end.

(** [medium3Async], which the two files define with two different headers. *)
Definition medium3Async (header : string) (rt : runtime) (net : network)
  : trace * list console_line :=
  match fetch net resource [] with
  | (Thrown m, t) => (t, [error_line m])
  | (Resolved response, t) =>
      if negb (ok response)
      then (t, [error_line "Network error while fetching posts."])
      else
        match body response with
        | Thrown m => (t, [error_line m])
        | Resolved posts =>
            match first_five rt posts [[PText header]] with
            | (Resolved _, out) => (t, out)
            | (Thrown m, out) => (t, out ++ [error_line m])
            end
        end
  end.

Definition day13_header : string := "✅ MEDIUM 3 (async/await): First 5 titles:".
Definition day14_header : string := "✅ MEDIUM 3 (async/await): First 5 Titles:".

(** The lines [number. title] for consecutive numbers. *)
Fixpoint numbered (number : Z) (titles : list string) : list console_line :=
  match titles with
  | [] => []
  | s :: rest => title_line number s :: numbered (number + 1) rest
  end.

(** The title of [post] prints as [s]. *)
Definition prints (rt : runtime) (post : json) (s : string) : Prop :=
  exists title, title_of rt post = Resolved title /\ to_text rt title = Resolved s.

(** Printing the title of [post] throws an error with message [m]. *)
Definition throws (rt : runtime) (post : json) (m : string) : Prop :=
  title_of rt post = Thrown m \/
  exists title, title_of rt post = Resolved title /\ to_text rt title = Thrown m.

End Medium3.

(** A runtime for the examples: strings print as they are, [undefined] and
    [null] by their names, and nothing else is printed. *)
Definition sample_runtime : runtime := {|
  to_text := fun v =>
    match v with
    | None => Resolved "undefined"
    | Some JNull => Resolved "null"
    | Some (JString s) => Resolved s
    | Some _ => Thrown "Cannot convert object to primitive value"
    end;
  not_an_array := fun _ => "posts.slice(...).forEach is not a function";
  property_of_null := "Cannot read properties of null (reading 'title')"
|}.

Definition titled (s : string) : json := JObject [("id", JNumber 1); ("title", JString s)].

(** A feed of six posts, and one of two posts around a [null]. *)
Definition feed : network := fun _ _ =>
  Resolved (mkResponse true (Resolved (JArray
    [titled "a"; titled "b"; titled "c"; titled "d"; titled "e"; titled "f"]))).

Definition broken_feed : network := fun _ _ =>
  Resolved (mkResponse true (Resolved (JArray [titled "a"; JNull; titled "c"]))).

(** ** Day 15: closures *)

(** A function that closes over variables: a call takes their current values
    and gives its result and their new values. *)
Definition closure (S R : Type) : Type := S -> R * S.

(** [n] calls in a row: the results, in order, and the captured variables at
    the end. *)
Fixpoint call_n {S R : Type} (f : closure S R) (n : nat) (s : S) : list R * S :=
  match n with
  | O => ([], s)
  | Datatypes.S n' =>
      let (r, s1) := f s in
      let (rs, s2) := call_n f n' s1 in
      (r :: rs, s2)
  end.

(** The numbers of the language are binary64 floating-point numbers: an
    integer is one of them when 53 significant bits hold it, and the result
    of an addition or a subtraction is the nearest such number, a tie going
    to the even significand. [round_number x] is that number for the exact
    result [x]; integers below 2^53 in magnitude are kept as they are.
    (Results beyond the range of binary64, near 1.8e308, are left out.) *)
Definition round_number (x : Z) : Z :=
  let m := Z.abs x in
  if m <? 2 ^ 53 then x
  else
    let ulp := 2 ^ (Z.log2 m - 52) in
    let q := m / ulp in
    let r := m mod ulp in
    let q' :=
      if 2 * r <? ulp then q
      else if ulp <? 2 * r then q + 1
      else if Z.even q then q else q + 1 in
    Z.sgn x * (q' * ulp).

(** [a + b] and [a - b] on numbers. *)
Definition number_add (a b : Z) : Z := round_number (a + b).
Definition number_sub (a b : Z) : Z := round_number (a - b).

Module Closures.

(** Every counter is created with [let count = 0]. *)
Definition fresh_count : Z := 0.


(** [createStepCounter(step)]: [function() { count += step; return count; }] *)
Definition createStepCounter (step : Z) : closure Z Z :=
  fun count => let count := number_add count step in (count, count).

(** [createMaxCounter(max)]:
    [function() { if (count < max) count++; return count; }] *)
Definition createMaxCounter (max : Z) : closure Z Z :=
  fun count => let count := if count <? max then count + 1 else count in
               (count, count).

(** [createResettableCounter()]: [{ inc: () => ++count, reset: () => (count = 0) }] *)
Inductive resettable_method : Type := inc | reset.

Definition createResettableCounter (m : resettable_method) : closure Z Z :=
  match m with
  | inc => fun count => (count + 1, count + 1)
  | reset => fun _ => (0, 0)
  end.

(** [useToggle(initial = false)]: the getter [() => state] and
    [function toggle() { state = !state; return state; }] *)
Definition useToggle_initial (initial : option bool) : bool :=
  match initial with Some b => b | None => false end.

Definition toggle : closure bool bool :=
  fun state => let state := negb state in (state, state).

(** [useCounter(initial = 0, step = 1)]: the four functions
    [() => count], [() => (count += step)], [() => (count -= step)] and
    [() => (count = initial)], in the order of the returned array. *)
Inductive counter_method : Type := getC | incC | decC | resetC.

Definition useCounter (initial step : option Z) (m : counter_method)
  : closure Z Z :=
  let initial := match initial with Some i => i | None => 0 end in
  let step := match step with Some s => s | None => 1 end in
  match m with
  | getC => fun count => (count, count)
  | incC => fun count => (number_add count step, number_add count step)
  | decC => fun count => (number_sub count step, number_sub count step)
  | resetC => fun _ => (initial, initial)
  end.

Definition useCounter_initial (initial : option Z) : Z :=
  match initial with Some i => i | None => 0 end.

(** A sequence of method calls on one object, each with its result. *)
Fixpoint call_each {M S R : Type} (object : M -> closure S R) (ms : list M) (s : S)
  : list R * S :=
  match ms with
  | [] => ([], s)
  | m :: rest =>
      let (r, s1) := object m s in
      let (rs, s2) := call_each object rest s1 in
      (r :: rs, s2)
  end.

(** [useOnce(fn)]: [called] starts [false];
    [function(...args) { if (!called) { called = true; return fn(...args); } }].
    [fn] acts on a world [W] and may throw; the wrapper returns [undefined]
    ([None]) when it does not call [fn]. *)
Definition useOnce {A W R : Type} (fn : A -> W -> awaited R * W) (args : A)
  : closure (bool * W) (awaited (option R)) :=
  fun '(called, w) =>
    if negb called then
      match fn args w with
      | (Resolved r, w') => (Resolved (Some r), (true, w'))
      | (Thrown m, w') => (Thrown m, (true, w'))
      end
    else (Resolved None, (called, w)).

(** Calls of the wrapper with the given arguments, one after the other. *)
Fixpoint call_with {A S R : Type} (f : A -> closure S R) (args : list A) (s : S)
  : list R * S :=
  match args with
  | [] => ([], s)
  | a :: rest =>
      let (r, s1) := f a s in
      let (rs, s2) := call_with f rest s1 in
      (r :: rs, s2)
  end.

(** Arrays are objects: the heap holds their elements by address, and a
    variable holds an address. *)
Definition heap (V : Type) : Type := list (list V).

Definition contents {V : Type} (h : heap V) (a : nat) : list V := nth a h [].

Fixpoint update {V : Type} (h : heap V) (a : nat) (l : list V) : heap V :=
  match h, a with
  | [], _ => []
  | _ :: rest, O => l :: rest
  | x :: rest, Datatypes.S a' => x :: update rest a' l
  end.

(** A new array object. *)
Definition allocate {V : Type} (h : heap V) (l : list V) : nat * heap V :=
  (List.length h, h ++ [l]).

(** [useArray(initial = [])]: [let arr = [...initial]]. The default value is
    an array of its own, and the spread makes a new array of the elements. *)
Definition useArray {V : Type} (initial : option nat) (h : heap V) : nat * heap V :=
  let (initial, h1) :=
    match initial with
    | Some a => (a, h)
    | None => allocate h []
    end in
  allocate h1 (contents h1 initial).

(** The four functions [() => arr], [(item) => arr.push(item)],
    [() => arr.pop()] and [() => (arr = [])]. *)
Inductive array_method (V : Type) : Type :=
| getArr
| pushArr (item : V)
| popArr
| clearArr.
Arguments getArr {V}.
Arguments pushArr {V} item.
Arguments popArr {V}.
Arguments clearArr {V}.

Inductive array_result (V : Type) : Type :=
| AnArray (a : nat)
| ALength (n : nat)
| AnItem (v : V)
| NoItem.
Arguments AnArray {V} a.
Arguments ALength {V} n.
Arguments AnItem {V} v.
Arguments NoItem {V}.

Definition array_hook {V : Type} (m : array_method V)
  : closure (nat * heap V) (array_result V) :=
  fun '(arr, h) =>
    match m with
    | getArr => (AnArray arr, (arr, h))
    | pushArr item =>
        let l := contents h arr ++ [item] in
        (ALength (List.length l), (arr, update h arr l))
    | popArr =>
        match rev (contents h arr) with
        | [] => (NoItem, (arr, h))
        | v :: before => (AnItem v, (arr, update h arr (rev before)))
        end
    | clearArr =>
        let (a, h') := allocate h [] in (AnArray a, (a, h'))
    end.

End Closures.

(** ** Basic facts on traces *)

Lemma calls_app (t u : trace) : calls (t ++ u) = (calls t + calls u)%nat.
Proof. unfold calls. now rewrite filter_app, length_app. Qed.

Lemma settlements_app (t u : trace) :
  settlements (t ++ u) = settlements t ++ settlements u.
Proof.
  induction t as [|e t IH]; simpl; [reflexivity|].
  destruct e; simpl; rewrite IH; reflexivity.
Qed.

Lemma Log_inj (x y : string) : Log x = Log y -> x = y.
Proof. intros H. now injection H. Qed.

Lemma Str_inj (x y : string) : Str x = Str y -> x = y.
Proof. intros H. now injection H. Qed.

Lemma Err_inj (x y : string) : Err x = Err y -> x = y.
Proof. intros H. now injection H. Qed.

Lemma calls_console_log line t : calls (console_log line t) = calls t.
Proof. unfold console_log, calls. rewrite filter_app, length_app. simpl. lia. Qed.

Lemma succeeds_false_failed o : succeeds o = false -> failed o.
Proof.
  destruct o as [r|m]; simpl; intros H.
  - exists "Bad response.". simpl. now rewrite H.
  - now exists m.
Qed.

Lemma succeeds_false_kinds o :
  succeeds o = false <-> transport_fails o || status_unsuccessful o = true.
Proof.
  destruct o as [r|m]; simpl; [destruct (ok r); simpl|]; intuition congruence.
Qed.

(** Among the first [n] attempts either one delivers a payload, all earlier
    ones having failed, or all of them fail. *)
Lemma first_payload_or_all_fail (f : nat -> awaited json) (n : nat) :
  (exists k d, (k < n)%nat /\ (forall i, (i < k)%nat -> exists m, f i = Thrown m)
               /\ f k = Resolved d)
  \/ (forall i, (i < n)%nat -> exists m, f i = Thrown m).
Proof.
  induction n as [|n [(k & d & Hk & Hbefore & Hd) | Hall]].
  - right. intros i Hi. lia.
  - left. exists k, d. repeat split; auto; lia.
  - destruct (f n) as [d|m] eqn:Hn.
    + left. exists n, d. repeat split; auto.
    + right. intros i Hi.
      destruct (Nat.eq_dec i n) as [->|Hne]; [now exists m | apply Hall; lia].
Qed.

(** ** Facts on strings and on printing integers *)

Lemma length_append (x y : string) :
  String.length (x ++ y)%string = (String.length x + String.length y)%nat.
Proof. induction x as [|c x IH]; simpl; [reflexivity | now rewrite IH]. Qed.

Lemma append_inv_head (p x y : string) :
  (p ++ x)%string = (p ++ y)%string -> x = y.
Proof.
  induction p as [|c p IH]; simpl; intros H; [exact H|].
  injection H as H. now apply IH.
Qed.

Lemma append_inv_tail (s x y : string) :
  (x ++ s)%string = (y ++ s)%string -> x = y.
Proof.
  revert y. induction x as [|c x IH]; intros [|c' y] H; simpl in H.
  - reflexivity.
  - apply (f_equal String.length) in H. simpl in H.
    rewrite length_append in H. lia.
  - apply (f_equal String.length) in H. simpl in H.
    rewrite length_append in H. lia.
  - injection H as -> H. f_equal. now apply IH.
Qed.

Lemma to_int_not_nil (z : Z) :
  Z.to_int z <> Decimal.Pos Decimal.Nil /\ Z.to_int z <> Decimal.Neg Decimal.Nil.
Proof.
  split; intros H; pose proof (DecimalZ.of_to z) as E; rewrite H in E;
    cbn in E; subst z; discriminate H.
Qed.

(** Two integers that print the same are the same. *)
Lemma show_inj (a b : Z) : show a = show b -> a = b.
Proof.
  unfold show. intros H.
  apply (f_equal NilZero.int_of_string) in H.
  destruct (to_int_not_nil a) as [Ha1 Ha2], (to_int_not_nil b) as [Hb1 Hb2].
  rewrite !NilZero.isi in H by assumption.
  injection H as H. now apply DecimalZ.to_int_inj.
Qed.

(** ** The promise-chaining implementation, step by step *)

Module PromiseChainFacts.
Import PromiseChain.

Lemma then_on_response o : then_ o on_response = attempt_outcome o.
Proof.
  destruct o as [r|m]; simpl; [|reflexivity].
  unfold on_response. now destruct (ok r).
Qed.

Section Run.

Variable net : network.
Variable url : string.
Variable retries : Z.

(** One turn of [attemptFetch]. *)
Lemma attemptFetch_step (a : Z) (t : trace) :
  attemptFetch net url retries a t =
  match attempt_outcome (net url (calls t)) with
  | Resolved d =>
      t ++ [Log (attempt_line url a); Fetch url; Resolve (Data d)]
  | Thrown m =>
      if a <? retries
      then attemptFetch net url retries (a + 1)
             (t ++ [Log (attempt_line url a); Fetch url; Log retry_line])
      else t ++ [Log (attempt_line url a); Fetch url;
                 Reject (failure retries m)]
  end.
Proof.
  rewrite attemptFetch_equation_1. unfold fetch.
  rewrite calls_console_log. unfold console_log. simpl.
  rewrite then_on_response.
  destruct (attempt_outcome (net url (calls t))) as [d|m]; simpl.
  - now rewrite <- !app_assoc.
  - destruct (Z_lt_dec a retries) as [Hlt|Hge]; simpl.
    + apply Z.ltb_lt in Hlt. rewrite Hlt. unfold console_log.
      now rewrite <- !app_assoc.
    + apply Z.ltb_nlt in Hge. rewrite Hge. now rewrite <- !app_assoc.
Qed.

Lemma chain_attempt_line_inj (a b : Z) :
  attempt_line url a = attempt_line url b -> a = b.
Proof.
  unfold attempt_line. intros H.
  apply append_inv_head, append_inv_tail in H. now apply show_inj.
Qed.

Lemma chain_retry_line_not_attempt (a : Z) : retry_line <> attempt_line url a.
Proof. unfold retry_line, attempt_line. simpl. discriminate. Qed.

(** The run that starts at attempt [a], when the next [j] remote calls fail
    and the one after them delivers [d]. *)
Lemma chain_run_success (j : nat) : forall (a : Z) (t : trace) (d : json),
  (forall i, (i < j)%nat -> failed (net url (calls t + i)%nat)) ->
  attempt_outcome (net url (calls t + j)%nat) = Resolved d ->
  a + Z.of_nat j <= retries ->
  calls (attemptFetch net url retries a t) = (calls t + j + 1)%nat /\
  settlements (attemptFetch net url retries a t)
  = settlements t ++ [Fulfilled (Data d)].
Proof.
  induction j as [|j IH]; intros a t d Hfail Hd Hle; rewrite attemptFetch_step.
  - rewrite Nat.add_0_r in Hd. rewrite Hd.
    rewrite calls_app, settlements_app. simpl. split; [unfold calls; simpl; lia | reflexivity].
  - destruct (Hfail 0%nat) as [m Hm]; [lia|].
    rewrite Nat.add_0_r in Hm. rewrite Hm.
    replace (a <? retries) with true by (symmetry; apply Z.ltb_lt; lia).
    set (t' := t ++ _).
    assert (Hc : calls t' = S (calls t)).
    { unfold t'. rewrite calls_app. unfold calls at 2. simpl. lia. }
    assert (Hs : settlements t' = settlements t).
    { unfold t'. rewrite settlements_app. simpl. apply app_nil_r. }
    destruct (IH (a + 1) t' d) as [IHc IHs].
    + intros i Hi. rewrite Hc.
      replace (S (calls t) + i)%nat with (calls t + S i)%nat by lia.
      apply Hfail. lia.
    + rewrite Hc. now replace (S (calls t) + j)%nat with (calls t + S j)%nat by lia.
    + lia.
    + rewrite IHc, IHs, Hc, Hs. split; [lia | reflexivity].
Qed.

(** The run that starts at attempt [a], when the next [j + 1] remote calls
    fail and the last of them is the last one allowed. *)
Lemma chain_run_exhausted (j : nat) : forall (a : Z) (t : trace) (m : string),
  (forall i, (i < j)%nat -> failed (net url (calls t + i)%nat)) ->
  attempt_outcome (net url (calls t + j)%nat) = Thrown m ->
  (j = 0%nat /\ retries <= a) \/ a + Z.of_nat j = retries ->
  calls (attemptFetch net url retries a t) = (calls t + j + 1)%nat /\
  settlements (attemptFetch net url retries a t)
  = settlements t ++ [Rejected (failure retries m)].
Proof.
  induction j as [|j IH]; intros a t m Hfail Hm Hlast; rewrite attemptFetch_step.
  - rewrite Nat.add_0_r in Hm. rewrite Hm.
    replace (a <? retries) with false by (symmetry; apply Z.ltb_ge; lia).
    rewrite calls_app, settlements_app. simpl. split; [unfold calls; simpl; lia | reflexivity].
  - destruct (Hfail 0%nat) as [m0 Hm0]; [lia|].
    rewrite Nat.add_0_r in Hm0. rewrite Hm0.
    replace (a <? retries) with true by (symmetry; apply Z.ltb_lt; lia).
    set (t' := t ++ _).
    assert (Hc : calls t' = S (calls t)).
    { unfold t'. rewrite calls_app. unfold calls at 2. simpl. lia. }
    assert (Hs : settlements t' = settlements t).
    { unfold t'. rewrite settlements_app. simpl. apply app_nil_r. }
    destruct (IH (a + 1) t' m) as [IHc IHs].
    + intros i Hi. rewrite Hc.
      replace (S (calls t) + i)%nat with (calls t + S i)%nat by lia.
      apply Hfail. lia.
    + rewrite Hc. now replace (S (calls t) + j)%nat with (calls t + S j)%nat by lia.
    + right. lia.
    + rewrite IHc, IHs, Hc, Hs. split; [lia | reflexivity].
Qed.

(** [attemptFetch] is never entered with a counter beyond [retries]. *)
Lemma chain_attempt_lines_bounded (n : nat) : forall (a : Z) (t : trace),
  n = Z.to_nat (retries - a) -> 1 <= a <= retries ->
  (forall b, In (Log (attempt_line url b)) t -> 1 <= b <= retries) ->
  forall b, In (Log (attempt_line url b)) (attemptFetch net url retries a t) ->
            1 <= b <= retries.
Proof.
  induction n as [|n IH]; intros a t Hn Ha Ht b; rewrite attemptFetch_step;
    destruct (attempt_outcome (net url (calls t))) as [d|m].
  1, 3: rewrite in_app_iff; simpl;
    intros [H | [H | [H | [H | []]]]]; try discriminate; [now apply Ht|];
    apply Log_inj, chain_attempt_line_inj in H; lia.
  - replace (a <? retries) with false by (symmetry; apply Z.ltb_ge; lia).
    rewrite in_app_iff; simpl.
    intros [H | [H | [H | [H | []]]]]; try discriminate; [now apply Ht|].
    apply Log_inj, chain_attempt_line_inj in H. lia.
  - destruct (a <? retries) eqn:Hlt.
    + apply Z.ltb_lt in Hlt. apply IH; [lia | lia |].
      intros c. rewrite in_app_iff; simpl.
      intros [H | [H | [H | [H | []]]]].
      * now apply Ht.
      * apply Log_inj, chain_attempt_line_inj in H. lia.
      * discriminate H.
      * apply Log_inj in H. now apply chain_retry_line_not_attempt in H.
    + rewrite in_app_iff; simpl.
      intros [H | [H | [H | [H | []]]]]; try discriminate; [now apply Ht|].
      apply Log_inj, chain_attempt_line_inj in H. lia.
Qed.

End Run.
End PromiseChainFacts.

(** ** The async/await implementation, step by step *)

Module AsyncAwaitFacts.
Import AsyncAwait.

Section Run.

Variable net : network.
Variable url : string.
Variable retries : Z.

Lemma try_block_outcome (t : trace) :
  try_block net url t = (attempt_outcome (net url (calls t)), t ++ [Fetch url]).
Proof.
  unfold try_block, fetch.
  destruct (net url (calls t)) as [r|m]; simpl; [|reflexivity].
  now destruct (ok r).
Qed.

(** One turn of the [for] loop. *)
Lemma loop_step (a : Z) (t : trace) :
  loop net url retries a t =
  if a <=? retries then
    match attempt_outcome (net url (calls t)) with
    | Resolved d =>
        (Fulfilled (Data d), t ++ [Log (attempt_line url a); Fetch url])
    | Thrown m =>
        if a =? retries
        then (Rejected (failure retries m),
              t ++ [Log (attempt_line url a); Fetch url])
        else loop net url retries (a + 1)
               (t ++ [Log (attempt_line url a); Fetch url; Log retry_line])
    end
  else (Fulfilled Undefined, t).
Proof.
  rewrite loop_equation_1.
  destruct (Z_le_dec a retries) as [Hle|Hgt]; simpl.
  - rewrite (proj2 (Z.leb_le a retries) Hle).
    rewrite try_block_outcome, calls_console_log. unfold console_log.
    destruct (attempt_outcome (net url (calls t))) as [d|m]; simpl.
    + now rewrite <- !app_assoc.
    + destruct (Z.eq_dec a retries) as [Heq|Hne]; simpl.
      * rewrite (proj2 (Z.eqb_eq a retries) Heq). now rewrite <- !app_assoc.
      * rewrite (proj2 (Z.eqb_neq a retries) Hne). unfold console_log.
        now rewrite <- !app_assoc.
  - now rewrite (proj2 (Z.leb_nle a retries) Hgt).
Qed.

Lemma loop_attempt_line_inj (a b : Z) :
  attempt_line url a = attempt_line url b -> a = b.
Proof.
  unfold attempt_line. intros H.
  apply append_inv_head, append_inv_tail in H. now apply show_inj.
Qed.

Lemma loop_retry_line_not_attempt (a : Z) : retry_line <> attempt_line url a.
Proof. unfold retry_line, attempt_line. simpl. discriminate. Qed.

(** The loop entered at attempt [a], when the next [j] remote calls fail and
    the one after them delivers [d]. *)
Lemma loop_run_success (j : nat) : forall (a : Z) (t : trace) (d : json),
  (forall i, (i < j)%nat -> failed (net url (calls t + i)%nat)) ->
  attempt_outcome (net url (calls t + j)%nat) = Resolved d ->
  a + Z.of_nat j <= retries ->
  fst (loop net url retries a t) = Fulfilled (Data d) /\
  calls (snd (loop net url retries a t)) = (calls t + j + 1)%nat.
Proof.
  induction j as [|j IH]; intros a t d Hfail Hd Hle; rewrite loop_step;
    replace (a <=? retries) with true by (symmetry; apply Z.leb_le; lia).
  - rewrite Nat.add_0_r in Hd. rewrite Hd. simpl.
    rewrite calls_app. split; [reflexivity | unfold calls at 2; simpl; lia].
  - destruct (Hfail 0%nat) as [m Hm]; [lia|].
    rewrite Nat.add_0_r in Hm. rewrite Hm.
    replace (a =? retries) with false by (symmetry; apply Z.eqb_neq; lia).
    set (t' := t ++ _).
    assert (Hc : calls t' = S (calls t)).
    { unfold t'. rewrite calls_app. unfold calls at 2. simpl. lia. }
    destruct (IH (a + 1) t' d) as [IHr IHc].
    + intros i Hi. rewrite Hc.
      replace (S (calls t) + i)%nat with (calls t + S i)%nat by lia.
      apply Hfail. lia.
    + rewrite Hc. now replace (S (calls t) + j)%nat with (calls t + S j)%nat by lia.
    + lia.
    + rewrite IHr, IHc, Hc. split; [reflexivity | lia].
Qed.

(** The loop entered at attempt [a], when the next [j + 1] remote calls fail
    and the last of them is the last one allowed. *)
Lemma loop_run_exhausted (j : nat) : forall (a : Z) (t : trace) (m : string),
  (forall i, (i < j)%nat -> failed (net url (calls t + i)%nat)) ->
  attempt_outcome (net url (calls t + j)%nat) = Thrown m ->
  a + Z.of_nat j = retries ->
  fst (loop net url retries a t) = Rejected (failure retries m) /\
  calls (snd (loop net url retries a t)) = (calls t + j + 1)%nat.
Proof.
  induction j as [|j IH]; intros a t m Hfail Hm Hlast; rewrite loop_step;
    replace (a <=? retries) with true by (symmetry; apply Z.leb_le; lia).
  - rewrite Nat.add_0_r in Hm. rewrite Hm.
    replace (a =? retries) with true by (symmetry; apply Z.eqb_eq; lia).
    simpl. rewrite calls_app. split; [reflexivity | unfold calls at 2; simpl; lia].
  - destruct (Hfail 0%nat) as [m0 Hm0]; [lia|].
    rewrite Nat.add_0_r in Hm0. rewrite Hm0.
    replace (a =? retries) with false by (symmetry; apply Z.eqb_neq; lia).
    set (t' := t ++ _).
    assert (Hc : calls t' = S (calls t)).
    { unfold t'. rewrite calls_app. unfold calls at 2. simpl. lia. }
    destruct (IH (a + 1) t' m) as [IHr IHc].
    + intros i Hi. rewrite Hc.
      replace (S (calls t) + i)%nat with (calls t + S i)%nat by lia.
      apply Hfail. lia.
    + rewrite Hc. now replace (S (calls t) + j)%nat with (calls t + S j)%nat by lia.
    + lia.
    + rewrite IHr, IHc, Hc. split; [reflexivity | lia].
Qed.

(** The loop body is never entered with a counter beyond [retries]. *)
Lemma loop_attempt_lines_bounded (n : nat) : forall (a : Z) (t : trace),
  n = Z.to_nat (retries + 1 - a) -> 1 <= a ->
  (forall b, In (Log (attempt_line url b)) t -> 1 <= b <= retries) ->
  forall b, In (Log (attempt_line url b)) (snd (loop net url retries a t)) ->
            1 <= b <= retries.
Proof.
  induction n as [|n IH]; intros a t Hn Ha Ht b; rewrite loop_step.
  - replace (a <=? retries) with false by (symmetry; apply Z.leb_gt; lia).
    simpl. apply Ht.
  - destruct (a <=? retries) eqn:Hle; [|simpl; apply Ht].
    apply Z.leb_le in Hle.
    assert (Hstep : forall c, In (Log (attempt_line url c))
                     (t ++ [Log (attempt_line url a); Fetch url]) ->
                   1 <= c <= retries).
    { intros c. rewrite in_app_iff; simpl.
      intros [H | [H | [H | []]]]; try discriminate; [now apply Ht|].
      apply Log_inj, loop_attempt_line_inj in H. lia. }
    destruct (attempt_outcome (net url (calls t))) as [d|m]; [apply Hstep|].
    destruct (a =? retries); [apply Hstep|].
    apply IH; [lia | lia |].
    intros c. rewrite in_app_iff; simpl.
    intros [H | [H | [H | [H | []]]]].
    + now apply Ht.
    + apply Log_inj, loop_attempt_line_inj in H. lia.
    + discriminate H.
    + apply Log_inj in H. now apply loop_retry_line_not_attempt in H.
Qed.

End Run.
End AsyncAwaitFacts.

(** ** Whole runs of [retryFetch] *)

Section Policy.

Variable net : network.
Variable url : string.
Variable retries : Z.

(** Either some attempt within the budget delivers a payload, all earlier
    ones having failed, or the whole budget fails. *)
Lemma retry_cases :
  1 <= retries ->
  (exists k d, (1 <= k)%nat /\ Z.of_nat k <= retries /\
               (forall i, (1 <= i < k)%nat -> failed (attempt net url i)) /\
               attempt_outcome (attempt net url k) = Resolved d)
  \/ (exists m, (forall i, (1 <= i)%nat -> Z.of_nat i <= retries ->
                           failed (attempt net url i)) /\
                attempt_outcome (attempt net url (Z.to_nat retries)) = Thrown m).
Proof.
  intros Hpos.
  destruct (first_payload_or_all_fail
              (fun i => attempt_outcome (net url i)) (Z.to_nat retries))
    as [(k & d & Hk & Hbefore & Hd) | Hall].
  - left. exists (S k), d. repeat split; [lia | lia | | exact Hd].
    intros [|i] Hi; [lia|]. apply Hbefore. lia.
  - right. destruct (Hall (Nat.pred (Z.to_nat retries))) as [m Hm]; [lia|].
    exists m. split; [|exact Hm].
    intros [|i] H1 Hi; [lia|]. apply Hall. lia.
Qed.

Lemma promise_delivers (k : nat) (d : json) :
  (1 <= k)%nat -> Z.of_nat k <= retries ->
  (forall i, (1 <= i < k)%nat -> failed (attempt net url i)) ->
  attempt_outcome (attempt net url k) = Resolved d ->
  fst (PromiseChain.retryFetch net url retries) = Some (Fulfilled (Data d)) /\
  settlements (snd (PromiseChain.retryFetch net url retries))
  = [Fulfilled (Data d)] /\
  calls (snd (PromiseChain.retryFetch net url retries)) = k.
Proof.
  intros Hk Hle Hbefore Hd. destruct k as [|j]; [lia|].
  destruct (PromiseChainFacts.chain_run_success net url retries j 1 [] d)
    as [Hc Hs]; [| exact Hd | lia |].
  - intros i Hi. apply (Hbefore (S i)). lia.
  - unfold PromiseChain.retryFetch, promise_state. simpl.
    rewrite Hs, Hc. simpl. repeat split. lia.
Qed.

Lemma promise_exhausted (m : string) :
  1 <= retries ->
  (forall i, (1 <= i)%nat -> Z.of_nat i <= retries -> failed (attempt net url i)) ->
  attempt_outcome (attempt net url (Z.to_nat retries)) = Thrown m ->
  fst (PromiseChain.retryFetch net url retries)
  = Some (Rejected (PromiseChain.failure retries m)) /\
  settlements (snd (PromiseChain.retryFetch net url retries))
  = [Rejected (PromiseChain.failure retries m)] /\
  calls (snd (PromiseChain.retryFetch net url retries)) = Z.to_nat retries.
Proof.
  intros Hpos Hall Hm.
  destruct (PromiseChainFacts.chain_run_exhausted net url retries
              (Nat.pred (Z.to_nat retries)) 1 [] m) as [Hc Hs];
    [| exact Hm | right; lia |].
  - intros i Hi. apply (Hall (S i)); lia.
  - unfold PromiseChain.retryFetch, promise_state. simpl.
    rewrite Hs, Hc. simpl. repeat split. lia.
Qed.

Lemma async_delivers (k : nat) (d : json) :
  (1 <= k)%nat -> Z.of_nat k <= retries ->
  (forall i, (1 <= i < k)%nat -> failed (attempt net url i)) ->
  attempt_outcome (attempt net url k) = Resolved d ->
  fst (AsyncAwait.retryFetch net url retries) = Fulfilled (Data d) /\
  calls (snd (AsyncAwait.retryFetch net url retries)) = k.
Proof.
  intros Hk Hle Hbefore Hd. destruct k as [|j]; [lia|].
  destruct (AsyncAwaitFacts.loop_run_success net url retries j 1 [] d)
    as [Hr Hc]; [| exact Hd | lia |].
  - intros i Hi. apply (Hbefore (S i)). lia.
  - unfold AsyncAwait.retryFetch. rewrite Hr, Hc. simpl. split; [reflexivity | lia].
Qed.

Lemma async_exhausted (m : string) :
  1 <= retries ->
  (forall i, (1 <= i)%nat -> Z.of_nat i <= retries -> failed (attempt net url i)) ->
  attempt_outcome (attempt net url (Z.to_nat retries)) = Thrown m ->
  fst (AsyncAwait.retryFetch net url retries)
  = Rejected (AsyncAwait.failure retries m) /\
  calls (snd (AsyncAwait.retryFetch net url retries)) = Z.to_nat retries.
Proof.
  intros Hpos Hall Hm.
  destruct (AsyncAwaitFacts.loop_run_exhausted net url retries
              (Nat.pred (Z.to_nat retries)) 1 [] m) as [Hr Hc];
    [| exact Hm | lia |].
  - intros i Hi. apply (Hall (S i)); lia.
  - unfold AsyncAwait.retryFetch. rewrite Hr, Hc. simpl. split; [reflexivity | lia].
Qed.

End Policy.

(** ** The three scenarios of the retry policy *)

Example scenario_A :
  PromiseChain.retryFetch flaky "/posts/1" 3
  = (Some (Fulfilled (Data post)),
     [Log "🔄 Attempt 1 to fetch: /posts/1"; Fetch "/posts/1";
      Log "⚠️ Failed, retrying...";
      Log "🔄 Attempt 2 to fetch: /posts/1"; Fetch "/posts/1";
      Log "⚠️ Failed, retrying...";
      Log "🔄 Attempt 3 to fetch: /posts/1"; Fetch "/posts/1";
      Resolve (Data post)])
  /\ AsyncAwait.retryFetch flaky "/posts/1" 3
  = (Fulfilled (Data post),
     [Log "🔄 Attempt 1 fetching: /posts/1"; Fetch "/posts/1";
      Log "⚠️ Retry after failure...";
      Log "🔄 Attempt 2 fetching: /posts/1"; Fetch "/posts/1";
      Log "⚠️ Retry after failure...";
      Log "🔄 Attempt 3 fetching: /posts/1"; Fetch "/posts/1"]).
Proof. split; reflexivity. Qed.

Example scenario_B :
  fst (PromiseChain.retryFetch unreachable "/posts/1" 3)
  = Some (Rejected (Str "❌ Failed after 3 retries: Load failed"))
  /\ calls (snd (PromiseChain.retryFetch unreachable "/posts/1" 3)) = 3%nat
  /\ fst (AsyncAwait.retryFetch unreachable "/posts/1" 3)
  = Rejected (Err "Failed after 3 retries: Load failed")
  /\ calls (snd (AsyncAwait.retryFetch unreachable "/posts/1" 3)) = 3%nat.
Proof. repeat split; reflexivity. Qed.

Example scenario_C :
  fst (PromiseChain.retryFetch healthy "/posts/1" 5) = Some (Fulfilled (Data post))
  /\ calls (snd (PromiseChain.retryFetch healthy "/posts/1" 5)) = 1%nat
  /\ fst (AsyncAwait.retryFetch healthy "/posts/1" 5) = Fulfilled (Data post)
  /\ calls (snd (AsyncAwait.retryFetch healthy "/posts/1" 5)) = 1%nat.
Proof. repeat split; reflexivity. Qed.

(** ** Properties of the retry policy *)

Lemma delivers_outcome (o : awaited response) (d : json) :
  delivers o d <-> attempt_outcome o = Resolved d.
Proof.
  split.
  - intros (r & -> & Hok & Hbody). simpl. now rewrite Hok.
  - destruct o as [r|m]; simpl; [|discriminate].
    destruct (ok r) eqn:Hok; [|discriminate].
    intros Hbody. now exists r.
Qed.

Lemma delivers_nothing_failed (o : awaited response) :
  (forall d, ~ delivers o d) -> failed o.
Proof.
  intros Hno. unfold failed.
  destruct (attempt_outcome o) as [d|m] eqn:Ho; [|now exists m].
  exfalso. apply (Hno d). now apply delivers_outcome.
Qed.

(** C1, as the code has it. For a budget [retries >= 1], when attempt
    [k <= retries] is the first one that delivers a payload, that is, the
    first whose transport completes, whose status is ok and whose body
    decodes, both implementations fulfil the promise with that payload after
    exactly [k] remote calls: nothing is fetched after it, and the promise of
    the chaining version is settled once. *)
Theorem first_delivered_payload_is_returned
  (net : network) (url : string) (retries : Z) (k : nat) (d : json) :
  1 <= retries -> (1 <= k)%nat -> Z.of_nat k <= retries ->
  (forall i, (1 <= i < k)%nat -> forall d', ~ delivers (attempt net url i) d') ->
  delivers (attempt net url k) d ->
  fst (PromiseChain.retryFetch net url retries) = Some (Fulfilled (Data d)) /\
  settlements (snd (PromiseChain.retryFetch net url retries))
  = [Fulfilled (Data d)] /\
  calls (snd (PromiseChain.retryFetch net url retries)) = k /\
  fst (AsyncAwait.retryFetch net url retries) = Fulfilled (Data d) /\
  calls (snd (AsyncAwait.retryFetch net url retries)) = k.
Proof.
  intros _ Hk Hle Hbefore Hd.
  apply delivers_outcome in Hd.
  assert (Hfailed : forall i, (1 <= i < k)%nat -> failed (attempt net url i)).
  { intros i Hi. now apply delivers_nothing_failed, Hbefore. }
  destruct (promise_delivers net url retries k d Hk Hle Hfailed Hd) as (H1 & H2 & H3).
  destruct (async_delivers net url retries k d Hk Hle Hfailed Hd) as (H4 & H5).
  now repeat split.
Qed.

Lemma first_delivered_payload_is_returned_witness :
  (forall i, (1 <= i < 3)%nat ->
             forall d', ~ delivers (attempt half_served "/posts/1" i) d') /\
  delivers (attempt half_served "/posts/1" 3) post /\
  fst (PromiseChain.retryFetch half_served "/posts/1" 5)
  = Some (Fulfilled (Data post)) /\
  settlements (snd (PromiseChain.retryFetch half_served "/posts/1" 5))
  = [Fulfilled (Data post)] /\
  calls (snd (PromiseChain.retryFetch half_served "/posts/1" 5)) = 3%nat /\
  fst (AsyncAwait.retryFetch half_served "/posts/1" 5) = Fulfilled (Data post) /\
  calls (snd (AsyncAwait.retryFetch half_served "/posts/1" 5)) = 3%nat.
Proof.
  assert (H : forall i, (1 <= i < 3)%nat ->
                        forall d', ~ delivers (attempt half_served "/posts/1" i) d').
  { intros [|[|[|i]]] Hi d' Hd; try lia;
      apply delivers_outcome in Hd; discriminate Hd. }
  assert (Hd : delivers (attempt half_served "/posts/1" 3) post).
  { apply delivers_outcome. reflexivity. }
  split; [exact H|]. split; [exact Hd|].
  apply (first_delivered_payload_is_returned half_served "/posts/1" 5 3 post);
    [lia | lia | lia | exact H | exact Hd].
Defined.

(** C1, as stated, fails: a completed transport with an ok status is not yet
    a success. With a budget of three attempts on a network that answers an
    error status, then an ok status on a body that is not JSON, then the
    resource, the first attempt whose transport completes with an ok status
    is the second; it has no payload to resolve with, and both
    implementations make a third remote call and deliver its payload. *)
Lemma first_ok_status_may_not_deliver :
  succeeds (attempt half_served "/posts/1" 1) = false /\
  succeeds (attempt half_served "/posts/1" 2) = true /\
  attempt_outcome (attempt half_served "/posts/1" 2)
  = Thrown "Unexpected token < in JSON" /\
  calls (snd (PromiseChain.retryFetch half_served "/posts/1" 3)) = 3%nat /\
  calls (snd (AsyncAwait.retryFetch half_served "/posts/1" 3)) = 3%nat /\
  ~ (calls (snd (PromiseChain.retryFetch half_served "/posts/1" 3)) <= 2)%nat /\
  ~ (calls (snd (AsyncAwait.retryFetch half_served "/posts/1" 3)) <= 2)%nat /\
  attempt_outcome (attempt half_served "/posts/1" 3) = Resolved post /\
  fst (PromiseChain.retryFetch half_served "/posts/1" 3)
  = Some (Fulfilled (Data post)) /\
  fst (AsyncAwait.retryFetch half_served "/posts/1" 3) = Fulfilled (Data post).
Proof.
  assert (HP : calls (snd (PromiseChain.retryFetch half_served "/posts/1" 3)) = 3%nat)
    by reflexivity.
  assert (HA : calls (snd (AsyncAwait.retryFetch half_served "/posts/1" 3)) = 3%nat)
    by reflexivity.
  repeat split; try reflexivity; rewrite ?HP, ?HA; lia.
Qed.

(** C2. For a budget [retries >= 1], when every attempt fails by a transport
    failure or by a status that is not ok, both implementations perform
    exactly [retries] remote calls and then reject with the terminal failure,
    whose text reports [retries] as the number of attempts. *)
Theorem all_attempts_fail_exhausts
  (net : network) (url : string) (retries : Z) :
  1 <= retries ->
  (forall i, (1 <= i)%nat -> Z.of_nat i <= retries ->
     transport_fails (attempt net url i)
     || status_unsuccessful (attempt net url i) = true) ->
  exists m,
    fst (PromiseChain.retryFetch net url retries)
    = Some (Rejected (Str ("❌ Failed after " ++ show retries
                                             ++ " retries: " ++ m)%string)) /\
    calls (snd (PromiseChain.retryFetch net url retries)) = Z.to_nat retries /\
    fst (AsyncAwait.retryFetch net url retries)
    = Rejected (Err ("Failed after " ++ show retries ++ " retries: " ++ m)%string) /\
    calls (snd (AsyncAwait.retryFetch net url retries)) = Z.to_nat retries.
Proof.
  intros Hpos Hall.
  assert (Hfailed : forall i, (1 <= i)%nat -> Z.of_nat i <= retries ->
                              failed (attempt net url i)).
  { intros i H1 Hi. now apply succeeds_false_failed, succeeds_false_kinds, Hall. }
  destruct (Hfailed (Z.to_nat retries)) as [m Hm]; [lia | lia |].
  exists m.
  destruct (promise_exhausted net url retries m Hpos Hfailed Hm) as (H1 & _ & H3).
  destruct (async_exhausted net url retries m Hpos Hfailed Hm) as (H4 & H5).
  now repeat split.
Qed.

Lemma all_attempts_fail_exhausts_witness :
  (forall i, (1 <= i)%nat -> Z.of_nat i <= 2 ->
     transport_fails (attempt unreachable "/posts/1" i)
     || status_unsuccessful (attempt unreachable "/posts/1" i) = true) /\
  exists m,
    fst (PromiseChain.retryFetch unreachable "/posts/1" 2)
    = Some (Rejected (Str ("❌ Failed after " ++ show 2
                                             ++ " retries: " ++ m)%string)) /\
    calls (snd (PromiseChain.retryFetch unreachable "/posts/1" 2)) = Z.to_nat 2 /\
    fst (AsyncAwait.retryFetch unreachable "/posts/1" 2)
    = Rejected (Err ("Failed after " ++ show 2 ++ " retries: " ++ m)%string) /\
    calls (snd (AsyncAwait.retryFetch unreachable "/posts/1" 2)) = Z.to_nat 2.
Proof.
  assert (H : forall i, (1 <= i)%nat -> Z.of_nat i <= 2 ->
     transport_fails (attempt unreachable "/posts/1" i)
     || status_unsuccessful (attempt unreachable "/posts/1" i) = true).
  { intros [|[|[|i]]] H1 Hi; try reflexivity; lia. }
  split; [exact H|].
  apply (all_attempts_fail_exhausts unreachable "/posts/1" 2); [lia | exact H].
Defined.

(** An attempt whose status is ok but whose body does not decode delivers no
    payload: it counts as a failed attempt like any other. *)
Example undecodable_body_is_retried :
  let garbled : network := fun _ i =>
    match i with
    | 0%nat => Resolved (mkResponse true (Thrown "Unexpected token < in JSON"))
    | _ => Resolved (mkResponse true (Resolved post))
    end in
  fst (PromiseChain.retryFetch garbled "/posts/1" 2) = Some (Fulfilled (Data post))
  /\ calls (snd (PromiseChain.retryFetch garbled "/posts/1" 2)) = 2%nat
  /\ fst (AsyncAwait.retryFetch garbled "/posts/1" 2) = Fulfilled (Data post)
  /\ fst (AsyncAwait.retryFetch garbled "/posts/1" 1)
     = Rejected (Err "Failed after 1 retries: Unexpected token < in JSON").
Proof. repeat split; reflexivity. Qed.

(** C3, as the code has it. For a budget [retries >= 1] the two
    implementations perform the same number of remote calls and settle alike:
    both fulfil with the payload of the first attempt that delivers one, or,
    exactly when all attempts fail, both reject with the same text
    ["Failed after <retries> retries: <message of the last failure>"]; but
    the chaining version rejects with the string made of ["❌ "] and that
    text, the async/await version with an [Error] whose message is that
    text. *)
Theorem implementations_agree_up_to_failure_value
  (net : network) (url : string) (retries : Z) :
  1 <= retries ->
  calls (snd (PromiseChain.retryFetch net url retries))
  = calls (snd (AsyncAwait.retryFetch net url retries)) /\
  ((exists k d,
      (1 <= k)%nat /\ Z.of_nat k <= retries /\
      (forall i, (1 <= i < k)%nat -> failed (attempt net url i)) /\
      attempt_outcome (attempt net url k) = Resolved d /\
      calls (snd (PromiseChain.retryFetch net url retries)) = k /\
      fst (PromiseChain.retryFetch net url retries) = Some (Fulfilled (Data d)) /\
      fst (AsyncAwait.retryFetch net url retries) = Fulfilled (Data d))
   \/
   (exists m,
      (forall i, (1 <= i)%nat -> Z.of_nat i <= retries ->
                 failed (attempt net url i)) /\
      attempt_outcome (attempt net url (Z.to_nat retries)) = Thrown m /\
      calls (snd (PromiseChain.retryFetch net url retries)) = Z.to_nat retries /\
      fst (PromiseChain.retryFetch net url retries)
      = Some (Rejected (Str ("❌ " ++ ("Failed after " ++ show retries
                                          ++ " retries: " ++ m))%string)) /\
      fst (AsyncAwait.retryFetch net url retries)
      = Rejected (Err ("Failed after " ++ show retries
                                       ++ " retries: " ++ m)%string))).
Proof.
  intros Hpos.
  destruct (retry_cases net url retries Hpos)
    as [(k & d & Hk & Hle & Hbefore & Hd) | (m & Hall & Hm)].
  - destruct (promise_delivers net url retries k d Hk Hle Hbefore Hd) as (H1 & _ & H3).
    destruct (async_delivers net url retries k d Hk Hle Hbefore Hd) as (H4 & H5).
    split; [congruence|].
    left. exists k, d. now repeat split.
  - destruct (promise_exhausted net url retries m Hpos Hall Hm) as (H1 & _ & H3).
    destruct (async_exhausted net url retries m Hpos Hall Hm) as (H4 & H5).
    split; [congruence|].
    right. exists m. now repeat split.
Qed.

Lemma implementations_agree_up_to_failure_value_witness :
  calls (snd (PromiseChain.retryFetch unreachable "/posts/1" 3))
  = calls (snd (AsyncAwait.retryFetch unreachable "/posts/1" 3)) /\
  ((exists k d,
      (1 <= k)%nat /\ Z.of_nat k <= 3 /\
      (forall i, (1 <= i < k)%nat -> failed (attempt unreachable "/posts/1" i)) /\
      attempt_outcome (attempt unreachable "/posts/1" k) = Resolved d /\
      calls (snd (PromiseChain.retryFetch unreachable "/posts/1" 3)) = k /\
      fst (PromiseChain.retryFetch unreachable "/posts/1" 3)
      = Some (Fulfilled (Data d)) /\
      fst (AsyncAwait.retryFetch unreachable "/posts/1" 3) = Fulfilled (Data d))
   \/
   (exists m,
      (forall i, (1 <= i)%nat -> Z.of_nat i <= 3 ->
                 failed (attempt unreachable "/posts/1" i)) /\
      attempt_outcome (attempt unreachable "/posts/1" (Z.to_nat 3)) = Thrown m /\
      calls (snd (PromiseChain.retryFetch unreachable "/posts/1" 3)) = Z.to_nat 3 /\
      fst (PromiseChain.retryFetch unreachable "/posts/1" 3)
      = Some (Rejected (Str ("❌ " ++ ("Failed after " ++ show 3
                                          ++ " retries: " ++ m))%string)) /\
      fst (AsyncAwait.retryFetch unreachable "/posts/1" 3)
      = Rejected (Err ("Failed after " ++ show 3 ++ " retries: " ++ m)%string))).
Proof.
  apply (implementations_agree_up_to_failure_value unreachable "/posts/1" 3). lia.
Defined.

(** C3, as stated, fails: with a budget of one attempt on a network that is
    down, the two implementations reject with different failure values. *)
Lemma failure_values_differ :
  fst (PromiseChain.retryFetch unreachable "/posts/1" 1)
  = Some (Rejected (Str "❌ Failed after 1 retries: Failed to fetch")) /\
  fst (AsyncAwait.retryFetch unreachable "/posts/1" 1)
  = Rejected (Err "Failed after 1 retries: Failed to fetch") /\
  fst (PromiseChain.retryFetch unreachable "/posts/1" 1)
  <> Some (fst (AsyncAwait.retryFetch unreachable "/posts/1" 1)).
Proof. repeat split. discriminate. Qed.

(** C4, as the code has it. On exhaustion the failure value is one text: the
    chaining version rejects with the string
    ["❌ Failed after <retries> retries: <message of the last failure>"], the
    async/await version with an [Error] whose [message] is
    ["Failed after <retries> retries: <message of the last failure>"]. Neither
    value has an [attemptsMade] or a [lastError] field. *)
Theorem exhaustion_failure_is_one_text
  (net : network) (url : string) (retries : Z) (m : string) :
  1 <= retries ->
  (forall i, (1 <= i)%nat -> Z.of_nat i <= retries -> failed (attempt net url i)) ->
  attempt_outcome (attempt net url (Z.to_nat retries)) = Thrown m ->
  exists rp ra,
    fst (PromiseChain.retryFetch net url retries) = Some (Rejected rp) /\
    fst (AsyncAwait.retryFetch net url retries) = Rejected ra /\
    rp = Str ("❌ Failed after " ++ show retries ++ " retries: " ++ m)%string /\
    read ra message
    = StringValued ("Failed after " ++ show retries ++ " retries: " ++ m)%string /\
    read rp attemptsMade = Missing /\ read rp lastError = Missing /\
    read ra attemptsMade = Missing /\ read ra lastError = Missing.
Proof.
  intros Hpos Hall Hm.
  destruct (promise_exhausted net url retries m Hpos Hall Hm) as (H1 & _ & _).
  destruct (async_exhausted net url retries m Hpos Hall Hm) as (H4 & _).
  exists (PromiseChain.failure retries m), (AsyncAwait.failure retries m).
  now repeat split.
Qed.

Lemma exhaustion_failure_is_one_text_witness :
  (forall i, (1 <= i)%nat -> Z.of_nat i <= 3 ->
             failed (attempt unreachable "/posts/1" i)) /\
  attempt_outcome (attempt unreachable "/posts/1" (Z.to_nat 3)) = Thrown "Load failed" /\
  exists rp ra,
    fst (PromiseChain.retryFetch unreachable "/posts/1" 3) = Some (Rejected rp) /\
    fst (AsyncAwait.retryFetch unreachable "/posts/1" 3) = Rejected ra /\
    rp = Str ("❌ Failed after " ++ show 3 ++ " retries: " ++ "Load failed")%string /\
    read ra message
    = StringValued ("Failed after " ++ show 3 ++ " retries: " ++ "Load failed")%string /\
    read rp attemptsMade = Missing /\ read rp lastError = Missing /\
    read ra attemptsMade = Missing /\ read ra lastError = Missing.
Proof.
  assert (H : forall i, (1 <= i)%nat -> Z.of_nat i <= 3 ->
                        failed (attempt unreachable "/posts/1" i)).
  { intros [|[|[|[|i]]]] H1 Hi; try lia; eexists; reflexivity. }
  split; [exact H|]. split; [reflexivity|].
  apply (exhaustion_failure_is_one_text unreachable "/posts/1" 3 "Load failed");
    [lia | exact H | reflexivity].
Defined.

(** C4, as stated, fails: with a budget of one attempt on a network that is
    down, neither implementation rejects with an object that has the fields
    [attemptsMade] and [lastError]. *)
Lemma exhaustion_failure_has_no_fields :
  (exists r, fst (PromiseChain.retryFetch unreachable "/posts/1" 1)
             = Some (Rejected r) /\ ~ exposes_attempts_and_last_error r) /\
  (exists r, fst (AsyncAwait.retryFetch unreachable "/posts/1" 1)
             = Rejected r /\ ~ exposes_attempts_and_last_error r).
Proof.
  split; eexists; (split; [reflexivity|]);
    intros (n & s & Hn & _); discriminate Hn.
Qed.

(** The terminal failure determines the failure detail it carries. *)
Lemma promise_failure_inj (retries : Z) (m m' : string) :
  PromiseChain.failure retries m = PromiseChain.failure retries m' -> m = m'.
Proof.
  unfold PromiseChain.failure. intros H. apply Str_inj in H.
  apply (append_inv_head "❌ Failed after ") in H.
  apply (append_inv_head (show retries)) in H.
  now apply (append_inv_head " retries: ") in H.
Qed.

Lemma async_failure_inj (retries : Z) (m m' : string) :
  AsyncAwait.failure retries m = AsyncAwait.failure retries m' -> m = m'.
Proof.
  unfold AsyncAwait.failure. intros H. apply Err_inj in H.
  apply (append_inv_head "Failed after ") in H.
  apply (append_inv_head (show retries)) in H.
  now apply (append_inv_head " retries: ") in H.
Qed.

(** C5. For a budget [retries >= 1], when all attempts fail and [m] is the
    failure detail of the last one, the terminal failure of both
    implementations carries [m]; the detail of an earlier attempt, when it
    differs from [m], is not the one that is surfaced. *)
Theorem last_failure_detail_is_surfaced
  (net : network) (url : string) (retries : Z) (m : string) :
  1 <= retries ->
  (forall i, (1 <= i)%nat -> Z.of_nat i <= retries -> failed (attempt net url i)) ->
  attempt_outcome (attempt net url (Z.to_nat retries)) = Thrown m ->
  fst (PromiseChain.retryFetch net url retries)
  = Some (Rejected (PromiseChain.failure retries m)) /\
  fst (AsyncAwait.retryFetch net url retries)
  = Rejected (AsyncAwait.failure retries m) /\
  forall i m', (1 <= i)%nat -> Z.of_nat i < retries ->
    attempt_outcome (attempt net url i) = Thrown m' -> m' <> m ->
    fst (PromiseChain.retryFetch net url retries)
    <> Some (Rejected (PromiseChain.failure retries m')) /\
    fst (AsyncAwait.retryFetch net url retries)
    <> Rejected (AsyncAwait.failure retries m').
Proof.
  intros Hpos Hall Hm.
  destruct (promise_exhausted net url retries m Hpos Hall Hm) as (H1 & _ & _).
  destruct (async_exhausted net url retries m Hpos Hall Hm) as (H4 & _).
  split; [exact H1|]. split; [exact H4|].
  intros i m' _ _ _ Hne. rewrite H1, H4. split; intros H.
  - apply Hne. symmetry. apply (promise_failure_inj retries). congruence.
  - apply Hne. symmetry. apply (async_failure_inj retries). congruence.
Qed.

Lemma last_failure_detail_is_surfaced_witness :
  (forall i, (1 <= i)%nat -> Z.of_nat i <= 3 ->
             failed (attempt unreachable "/posts/1" i)) /\
  attempt_outcome (attempt unreachable "/posts/1" (Z.to_nat 3)) = Thrown "Load failed" /\
  fst (PromiseChain.retryFetch unreachable "/posts/1" 3)
  = Some (Rejected (PromiseChain.failure 3 "Load failed")) /\
  fst (AsyncAwait.retryFetch unreachable "/posts/1" 3)
  = Rejected (AsyncAwait.failure 3 "Load failed") /\
  forall i m', (1 <= i)%nat -> Z.of_nat i < 3 ->
    attempt_outcome (attempt unreachable "/posts/1" i) = Thrown m' ->
    m' <> "Load failed" ->
    fst (PromiseChain.retryFetch unreachable "/posts/1" 3)
    <> Some (Rejected (PromiseChain.failure 3 m')) /\
    fst (AsyncAwait.retryFetch unreachable "/posts/1" 3)
    <> Rejected (AsyncAwait.failure 3 m').
Proof.
  assert (H : forall i, (1 <= i)%nat -> Z.of_nat i <= 3 ->
                        failed (attempt unreachable "/posts/1" i)).
  { intros [|[|[|[|i]]]] H1 Hi; try lia; eexists; reflexivity. }
  split; [exact H|]. split; [reflexivity|].
  apply (last_failure_detail_is_surfaced unreachable "/posts/1" 3 "Load failed");
    [lia | exact H | reflexivity].
Defined.

(** C6. For a budget [retries >= 1] and whatever the network answers, the
    promise is settled exactly once, and in one of two ways: it is fulfilled
    with the payload of the first attempt that delivers one, the failures
    before it leaving no mark on the result; or, all attempts having failed,
    it is rejected with the terminal failure, which carries the detail of the
    last attempt only. *)
Theorem only_the_terminal_failure_propagates
  (net : network) (url : string) (retries : Z) :
  1 <= retries ->
  (exists k d,
     (1 <= k)%nat /\ Z.of_nat k <= retries /\
     (forall i, (1 <= i < k)%nat -> failed (attempt net url i)) /\
     attempt_outcome (attempt net url k) = Resolved d /\
     settlements (snd (PromiseChain.retryFetch net url retries))
     = [Fulfilled (Data d)] /\
     fst (PromiseChain.retryFetch net url retries) = Some (Fulfilled (Data d)) /\
     fst (AsyncAwait.retryFetch net url retries) = Fulfilled (Data d))
  \/
  (exists m,
     (forall i, (1 <= i)%nat -> Z.of_nat i <= retries ->
                failed (attempt net url i)) /\
     attempt_outcome (attempt net url (Z.to_nat retries)) = Thrown m /\
     settlements (snd (PromiseChain.retryFetch net url retries))
     = [Rejected (PromiseChain.failure retries m)] /\
     fst (PromiseChain.retryFetch net url retries)
     = Some (Rejected (PromiseChain.failure retries m)) /\
     fst (AsyncAwait.retryFetch net url retries)
     = Rejected (AsyncAwait.failure retries m)).
Proof.
  intros Hpos.
  destruct (retry_cases net url retries Hpos)
    as [(k & d & Hk & Hle & Hbefore & Hd) | (m & Hall & Hm)].
  - destruct (promise_delivers net url retries k d Hk Hle Hbefore Hd) as (H1 & H2 & _).
    destruct (async_delivers net url retries k d Hk Hle Hbefore Hd) as (H4 & _).
    left. exists k, d. now repeat split.
  - destruct (promise_exhausted net url retries m Hpos Hall Hm) as (H1 & H2 & _).
    destruct (async_exhausted net url retries m Hpos Hall Hm) as (H4 & _).
    right. exists m. now repeat split.
Qed.

Lemma only_the_terminal_failure_propagates_witness :
  (exists k d,
     (1 <= k)%nat /\ Z.of_nat k <= 3 /\
     (forall i, (1 <= i < k)%nat -> failed (attempt flaky "/posts/1" i)) /\
     attempt_outcome (attempt flaky "/posts/1" k) = Resolved d /\
     settlements (snd (PromiseChain.retryFetch flaky "/posts/1" 3))
     = [Fulfilled (Data d)] /\
     fst (PromiseChain.retryFetch flaky "/posts/1" 3) = Some (Fulfilled (Data d)) /\
     fst (AsyncAwait.retryFetch flaky "/posts/1" 3) = Fulfilled (Data d))
  \/
  (exists m,
     (forall i, (1 <= i)%nat -> Z.of_nat i <= 3 ->
                failed (attempt flaky "/posts/1" i)) /\
     attempt_outcome (attempt flaky "/posts/1" (Z.to_nat 3)) = Thrown m /\
     settlements (snd (PromiseChain.retryFetch flaky "/posts/1" 3))
     = [Rejected (PromiseChain.failure 3 m)] /\
     fst (PromiseChain.retryFetch flaky "/posts/1" 3)
     = Some (Rejected (PromiseChain.failure 3 m)) /\
     fst (AsyncAwait.retryFetch flaky "/posts/1" 3)
     = Rejected (AsyncAwait.failure 3 m)).
Proof.
  apply (only_the_terminal_failure_propagates flaky "/posts/1" 3). lia.
Defined.

(** C7. An attempt whose transport fails and an attempt whose transport
    completes with a status that is not ok are both failed attempts, and what
    follows depends on the attempt counter alone: [attemptFetch] tries again
    when [attempt < retries] and rejects otherwise; the loop, entered with
    [attempt <= retries], rejects when [attempt = retries] and goes round
    again otherwise. The kind of failure only shows in the message. *)
Theorem failures_are_treated_uniformly
  (net : network) (url : string) (retries a : Z) (t : trace) :
  transport_fails (net url (calls t))
  || status_unsuccessful (net url (calls t)) = true ->
  exists m,
    attempt_outcome (net url (calls t)) = Thrown m /\
    PromiseChain.attemptFetch net url retries a t
    = (if a <? retries
       then PromiseChain.attemptFetch net url retries (a + 1)
              (t ++ [Log (PromiseChain.attempt_line url a); Fetch url;
                     Log PromiseChain.retry_line])
       else t ++ [Log (PromiseChain.attempt_line url a); Fetch url;
                  Reject (PromiseChain.failure retries m)]) /\
    (a <= retries ->
     AsyncAwait.loop net url retries a t
     = (if a =? retries
        then (Rejected (AsyncAwait.failure retries m),
              t ++ [Log (AsyncAwait.attempt_line url a); Fetch url])
        else AsyncAwait.loop net url retries (a + 1)
               (t ++ [Log (AsyncAwait.attempt_line url a); Fetch url;
                      Log AsyncAwait.retry_line]))).
Proof.
  intros Hkind.
  apply succeeds_false_kinds, succeeds_false_failed in Hkind.
  destruct Hkind as [m Hm]. exists m. split; [exact Hm|]. split.
  - rewrite PromiseChainFacts.attemptFetch_step, Hm. reflexivity.
  - intros Hle. rewrite AsyncAwaitFacts.loop_step, Hm.
    now rewrite (proj2 (Z.leb_le a retries) Hle).
Qed.

Lemma failures_are_treated_uniformly_witness :
  transport_fails (unreachable "/posts/1" (calls []))
  || status_unsuccessful (unreachable "/posts/1" (calls [])) = true /\
  exists m,
    attempt_outcome (unreachable "/posts/1" (calls [])) = Thrown m /\
    PromiseChain.attemptFetch unreachable "/posts/1" 3 1 []
    = (if 1 <? 3
       then PromiseChain.attemptFetch unreachable "/posts/1" 3 (1 + 1)
              ([] ++ [Log (PromiseChain.attempt_line "/posts/1" 1); Fetch "/posts/1";
                      Log PromiseChain.retry_line])
       else [] ++ [Log (PromiseChain.attempt_line "/posts/1" 1); Fetch "/posts/1";
                   Reject (PromiseChain.failure 3 m)]) /\
    (1 <= 3 ->
     AsyncAwait.loop unreachable "/posts/1" 3 1 []
     = (if 1 =? 3
        then (Rejected (AsyncAwait.failure 3 m),
              [] ++ [Log (AsyncAwait.attempt_line "/posts/1" 1); Fetch "/posts/1"])
        else AsyncAwait.loop unreachable "/posts/1" 3 (1 + 1)
               ([] ++ [Log (AsyncAwait.attempt_line "/posts/1" 1); Fetch "/posts/1";
                       Log AsyncAwait.retry_line]))).
Proof.
  split; [reflexivity|].
  apply (failures_are_treated_uniformly unreachable "/posts/1" 3 1 []).
  reflexivity.
Defined.

(** C8. With [retries = 1] exactly one remote call is made, whatever its
    outcome: when the attempt delivers a payload the promise is fulfilled with
    it, and when it fails the promise is rejected at once with the terminal
    failure. *)
Theorem single_attempt_never_retries (net : network) (url : string) :
  calls (snd (PromiseChain.retryFetch net url 1)) = 1%nat /\
  calls (snd (AsyncAwait.retryFetch net url 1)) = 1%nat /\
  match attempt_outcome (attempt net url 1) with
  | Resolved d =>
      fst (PromiseChain.retryFetch net url 1) = Some (Fulfilled (Data d)) /\
      fst (AsyncAwait.retryFetch net url 1) = Fulfilled (Data d)
  | Thrown m =>
      fst (PromiseChain.retryFetch net url 1)
      = Some (Rejected (PromiseChain.failure 1 m)) /\
      fst (AsyncAwait.retryFetch net url 1) = Rejected (AsyncAwait.failure 1 m)
  end.
Proof.
  unfold PromiseChain.retryFetch, AsyncAwait.retryFetch, attempt.
  rewrite PromiseChainFacts.attemptFetch_step, AsyncAwaitFacts.loop_step.
  change (calls []) with 0%nat. simpl.
  destruct (attempt_outcome (net url 0%nat)) as [d|m]; repeat split; reflexivity.
Qed.

(** C9. For a budget [retries >= 1] and whatever the network answers, a run
    ends: both implementations are total functions of the network, the
    promise is settled (once, in the chaining version; never with
    [undefined], in the async/await version) after at least one and at most
    [retries] remote calls, and neither [attemptFetch] nor the loop body is
    entered with an attempt counter outside [1 .. retries]. *)
Theorem retry_settles_within_budget
  (net : network) (url : string) (retries : Z) :
  1 <= retries ->
  (exists s, fst (PromiseChain.retryFetch net url retries) = Some s /\
             settlements (snd (PromiseChain.retryFetch net url retries)) = [s]) /\
  (1 <= calls (snd (PromiseChain.retryFetch net url retries)) <= Z.to_nat retries)%nat /\
  (forall a, In (Log (PromiseChain.attempt_line url a))
                (snd (PromiseChain.retryFetch net url retries)) ->
             1 <= a <= retries) /\
  fst (AsyncAwait.retryFetch net url retries) <> Fulfilled Undefined /\
  (1 <= calls (snd (AsyncAwait.retryFetch net url retries)) <= Z.to_nat retries)%nat /\
  (forall a, In (Log (AsyncAwait.attempt_line url a))
                (snd (AsyncAwait.retryFetch net url retries)) ->
             1 <= a <= retries).
Proof.
  intros Hpos.
  assert (Hlines :
    (forall a, In (Log (PromiseChain.attempt_line url a))
                  (snd (PromiseChain.retryFetch net url retries)) ->
               1 <= a <= retries) /\
    (forall a, In (Log (AsyncAwait.attempt_line url a))
                  (snd (AsyncAwait.retryFetch net url retries)) ->
               1 <= a <= retries)).
  { split.
    - apply (PromiseChainFacts.chain_attempt_lines_bounded net url retries
               (Z.to_nat (retries - 1)) 1 []); [reflexivity | lia |].
      intros b [].
    - apply (AsyncAwaitFacts.loop_attempt_lines_bounded net url retries
               (Z.to_nat (retries + 1 - 1)) 1 []); [reflexivity | lia |].
      intros b []. }
  destruct Hlines as [HlP HlA].
  destruct (retry_cases net url retries Hpos)
    as [(k & d & Hk & Hle & Hbefore & Hd) | (m & Hall & Hm)].
  - destruct (promise_delivers net url retries k d Hk Hle Hbefore Hd) as (H1 & H2 & H3).
    destruct (async_delivers net url retries k d Hk Hle Hbefore Hd) as (H4 & H5).
    rewrite H3, H4, H5.
    split; [exists (Fulfilled (Data d)); now split|].
    split; [lia|]. split; [exact HlP|]. split; [discriminate|].
    split; [lia | exact HlA].
  - destruct (promise_exhausted net url retries m Hpos Hall Hm) as (H1 & H2 & H3).
    destruct (async_exhausted net url retries m Hpos Hall Hm) as (H4 & H5).
    rewrite H3, H4, H5.
    split; [exists (Rejected (PromiseChain.failure retries m)); now split|].
    split; [lia|]. split; [exact HlP|]. split; [discriminate|].
    split; [lia | exact HlA].
Qed.

Lemma retry_settles_within_budget_witness :
  (exists s, fst (PromiseChain.retryFetch unreachable "/posts/1" 3) = Some s /\
             settlements (snd (PromiseChain.retryFetch unreachable "/posts/1" 3)) = [s]) /\
  (1 <= calls (snd (PromiseChain.retryFetch unreachable "/posts/1" 3)) <= Z.to_nat 3)%nat /\
  (forall a, In (Log (PromiseChain.attempt_line "/posts/1" a))
                (snd (PromiseChain.retryFetch unreachable "/posts/1" 3)) ->
             1 <= a <= 3) /\
  fst (AsyncAwait.retryFetch unreachable "/posts/1" 3) <> Fulfilled Undefined /\
  (1 <= calls (snd (AsyncAwait.retryFetch unreachable "/posts/1" 3)) <= Z.to_nat 3)%nat /\
  (forall a, In (Log (AsyncAwait.attempt_line "/posts/1" a))
                (snd (AsyncAwait.retryFetch unreachable "/posts/1" 3)) ->
             1 <= a <= 3).
Proof.
  apply (retry_settles_within_budget unreachable "/posts/1" 3). lia.
Defined.

(** C10. The budget is not checked. Called with [retries = 0], the
    async/await version never enters the loop body: it makes no remote call,
    logs nothing and fulfils the promise with [undefined], without raising
    anything; the chaining version still makes one remote call, and settles
    on its outcome. *)
Theorem zero_budget_is_not_checked (net : network) (url : string) :
  AsyncAwait.retryFetch net url 0 = (Fulfilled Undefined, []) /\
  calls (snd (AsyncAwait.retryFetch net url 0)) = 0%nat /\
  calls (snd (PromiseChain.retryFetch net url 0)) = 1%nat /\
  match attempt_outcome (attempt net url 1) with
  | Resolved d =>
      fst (PromiseChain.retryFetch net url 0) = Some (Fulfilled (Data d))
  | Thrown m =>
      fst (PromiseChain.retryFetch net url 0)
      = Some (Rejected (PromiseChain.failure 0 m))
  end.
Proof.
  unfold PromiseChain.retryFetch, AsyncAwait.retryFetch, attempt.
  rewrite PromiseChainFacts.attemptFetch_step, AsyncAwaitFacts.loop_step.
  change (calls []) with 0%nat. simpl.
  destruct (attempt_outcome (net url 0%nat)) as [d|m]; repeat split; reflexivity.
Qed.

(** ** Further properties of [retryFetch] *)

Section Budget.

Variable url : string.

(** [attemptFetch] entered with counter [a] reads the answers to the next
    [retries - a + 1] remote calls at most (one, when [a >= retries]). *)
Lemma chain_reads_within_budget (net net' : network) (retries : Z) (n : nat) :
  forall (a : Z) (t : trace),
  n = Z.to_nat (retries - a) ->
  (forall i, (calls t <= i <= calls t + n)%nat -> net url i = net' url i) ->
  PromiseChain.attemptFetch net url retries a t
  = PromiseChain.attemptFetch net' url retries a t.
Proof.
  induction n as [|n IH]; intros a t Hn Hsame;
    rewrite (PromiseChainFacts.attemptFetch_step net),
      (PromiseChainFacts.attemptFetch_step net');
    rewrite <- (Hsame (calls t)) by lia;
    destruct (attempt_outcome (net url (calls t))) as [d|m]; try reflexivity.
  - now replace (a <? retries) with false by (symmetry; apply Z.ltb_ge; lia).
  - replace (a <? retries) with true by (symmetry; apply Z.ltb_lt; lia).
    apply IH; [lia|].
    intros i Hi. apply Hsame. revert Hi.
    rewrite calls_app. unfold calls at 2 4. simpl. lia.
Qed.

(** The loop entered with counter [a] reads the answers to the next
    [retries + 1 - a] remote calls at most. *)
Lemma loop_reads_within_budget (net net' : network) (retries : Z) (n : nat) :
  forall (a : Z) (t : trace),
  n = Z.to_nat (retries + 1 - a) ->
  (forall i, (calls t <= i < calls t + n)%nat -> net url i = net' url i) ->
  AsyncAwait.loop net url retries a t = AsyncAwait.loop net' url retries a t.
Proof.
  induction n as [|n IH]; intros a t Hn Hsame; rewrite (AsyncAwaitFacts.loop_step net), (AsyncAwaitFacts.loop_step net').
  - now replace (a <=? retries) with false by (symmetry; apply Z.leb_gt; lia).
  - replace (a <=? retries) with true by (symmetry; apply Z.leb_le; lia).
    rewrite <- (Hsame (calls t)) by lia.
    destruct (attempt_outcome (net url (calls t))) as [d|m]; [reflexivity|].
    destruct (a =? retries); [reflexivity|].
    apply IH; [lia|].
    intros i Hi. apply Hsame. revert Hi.
    rewrite calls_app. unfold calls at 2 4. simpl. lia.
Qed.

(** A run of [attemptFetch] that fulfils the promise is the same run under
    any larger budget. *)
Lemma chain_success_is_kept (net : network) (retries retries' : Z) (n : nat) :
  forall (a : Z) (t : trace) (v : fulfilment),
  n = Z.to_nat (retries - a) -> retries <= retries' ->
  settlements t = [] ->
  promise_state (PromiseChain.attemptFetch net url retries a t)
  = Some (Fulfilled v) ->
  PromiseChain.attemptFetch net url retries' a t
  = PromiseChain.attemptFetch net url retries a t.
Proof.
  induction n as [|n IH]; intros a t v Hn Hle Ht;
    rewrite (PromiseChainFacts.attemptFetch_step net url retries'),
      (PromiseChainFacts.attemptFetch_step net url retries);
    destruct (attempt_outcome (net url (calls t))) as [d|m]; try reflexivity.
  - replace (a <? retries) with false by (symmetry; apply Z.ltb_ge; lia).
    unfold promise_state. rewrite settlements_app, Ht. simpl. discriminate.
  - replace (a <? retries) with true by (symmetry; apply Z.ltb_lt; lia).
    replace (a <? retries') with true by (symmetry; apply Z.ltb_lt; lia).
    apply IH; [lia | exact Hle |].
    rewrite settlements_app, Ht. reflexivity.
Qed.

Lemma loop_success_is_kept (net : network) (retries retries' : Z) (n : nat) :
  forall (a : Z) (t : trace) (d : json),
  n = Z.to_nat (retries + 1 - a) -> retries <= retries' ->
  fst (AsyncAwait.loop net url retries a t) = Fulfilled (Data d) ->
  AsyncAwait.loop net url retries' a t = AsyncAwait.loop net url retries a t.
Proof.
  induction n as [|n IH]; intros a t d Hn Hle; rewrite (AsyncAwaitFacts.loop_step net url retries'),
    (AsyncAwaitFacts.loop_step net url retries).
  - replace (a <=? retries) with false by (symmetry; apply Z.leb_gt; lia).
    simpl. discriminate.
  - replace (a <=? retries) with true by (symmetry; apply Z.leb_le; lia).
    replace (a <=? retries') with true by (symmetry; apply Z.leb_le; lia).
    destruct (attempt_outcome (net url (calls t))) as [d'|m]; [reflexivity|].
    destruct (a =? retries) eqn:Heq; [simpl; discriminate|].
    apply Z.eqb_neq in Heq.
    replace (a =? retries') with false by (symmetry; apply Z.eqb_neq; lia).
    apply IH; [lia | exact Hle].
Qed.

End Budget.

(** X1. The budget is not checked against any lower bound: for every
    integer [retries <= 0] (within the range where numbers are exact
    integers and print in plain decimal, above [- 2^53]) the async/await
    version makes no remote call and fulfils the promise with [undefined],
    while the chaining version makes exactly one remote call and settles on
    it; when that call fails, its rejection text prints [retries], not the
    one attempt that was made. *)
Theorem budget_below_one (net : network) (url : string) (retries : Z) :
  - 2 ^ 53 < retries <= 0 ->
  AsyncAwait.retryFetch net url retries = (Fulfilled Undefined, []) /\
  calls (snd (PromiseChain.retryFetch net url retries)) = 1%nat /\
  match attempt_outcome (attempt net url 1) with
  | Resolved d =>
      fst (PromiseChain.retryFetch net url retries) = Some (Fulfilled (Data d))
  | Thrown m =>
      fst (PromiseChain.retryFetch net url retries)
      = Some (Rejected (Str ("❌ Failed after " ++ show retries
                                               ++ " retries: " ++ m)%string))
  end.
Proof.
  intros Hle.
  unfold PromiseChain.retryFetch, AsyncAwait.retryFetch, attempt.
  rewrite PromiseChainFacts.attemptFetch_step, AsyncAwaitFacts.loop_step.
  replace (1 <=? retries) with false by (symmetry; apply Z.leb_gt; lia).
  replace (1 <? retries) with false by (symmetry; apply Z.ltb_ge; lia).
  change (calls []) with 0%nat. simpl.
  destruct (attempt_outcome (net url 0%nat)) as [d|m]; repeat split; reflexivity.
Qed.

Lemma budget_below_one_witness :
  - 2 ^ 53 < -2 <= 0 /\
  AsyncAwait.retryFetch unreachable "/posts/1" (-2) = (Fulfilled Undefined, []) /\
  calls (snd (PromiseChain.retryFetch unreachable "/posts/1" (-2))) = 1%nat /\
  match attempt_outcome (attempt unreachable "/posts/1" 1) with
  | Resolved d =>
      fst (PromiseChain.retryFetch unreachable "/posts/1" (-2))
      = Some (Fulfilled (Data d))
  | Thrown m =>
      fst (PromiseChain.retryFetch unreachable "/posts/1" (-2))
      = Some (Rejected (Str ("❌ Failed after " ++ show (-2)
                                               ++ " retries: " ++ m)%string))
  end.
Proof.
  split; [lia|]. apply (budget_below_one unreachable "/posts/1" (-2)). lia.
Defined.

(** X2. A response whose status is ok but whose body [response.json()] fails
    to decode is a failed attempt like the others: the message of the
    decoding error is its failure detail, and the attempt is followed by a
    retry or by the rejection under the same condition on the counter. *)
Theorem undecodable_body_is_a_failed_attempt
  (net : network) (url : string) (retries a : Z) (t : trace)
  (r : response) (m : string) :
  net url (calls t) = Resolved r -> ok r = true -> body r = Thrown m ->
  PromiseChain.attemptFetch net url retries a t
  = (if a <? retries
     then PromiseChain.attemptFetch net url retries (a + 1)
            (t ++ [Log (PromiseChain.attempt_line url a); Fetch url;
                   Log PromiseChain.retry_line])
     else t ++ [Log (PromiseChain.attempt_line url a); Fetch url;
                Reject (PromiseChain.failure retries m)]) /\
  (a <= retries ->
   AsyncAwait.loop net url retries a t
   = (if a =? retries
      then (Rejected (AsyncAwait.failure retries m),
            t ++ [Log (AsyncAwait.attempt_line url a); Fetch url])
      else AsyncAwait.loop net url retries (a + 1)
             (t ++ [Log (AsyncAwait.attempt_line url a); Fetch url;
                    Log AsyncAwait.retry_line]))).
Proof.
  intros Hnet Hok Hbody.
  assert (Hm : attempt_outcome (net url (calls t)) = Thrown m).
  { rewrite Hnet. simpl. now rewrite Hok. }
  split.
  - rewrite PromiseChainFacts.attemptFetch_step, Hm. reflexivity.
  - intros Hle. rewrite AsyncAwaitFacts.loop_step, Hm.
    now rewrite (proj2 (Z.leb_le a retries) Hle).
Qed.

Lemma undecodable_body_is_a_failed_attempt_witness :
  garbled "/posts/1" (calls []) 
  = Resolved (mkResponse true (Thrown "Unexpected token < in JSON")) /\
  PromiseChain.attemptFetch garbled "/posts/1" 2 1 []
  = (if 1 <? 2
     then PromiseChain.attemptFetch garbled "/posts/1" 2 (1 + 1)
            ([] ++ [Log (PromiseChain.attempt_line "/posts/1" 1); Fetch "/posts/1";
                    Log PromiseChain.retry_line])
     else [] ++ [Log (PromiseChain.attempt_line "/posts/1" 1); Fetch "/posts/1";
                 Reject (PromiseChain.failure 2 "Unexpected token < in JSON")]) /\
  (1 <= 2 ->
   AsyncAwait.loop garbled "/posts/1" 2 1 []
   = (if 1 =? 2
      then (Rejected (AsyncAwait.failure 2 "Unexpected token < in JSON"),
            [] ++ [Log (AsyncAwait.attempt_line "/posts/1" 1); Fetch "/posts/1"])
      else AsyncAwait.loop garbled "/posts/1" 2 (1 + 1)
             ([] ++ [Log (AsyncAwait.attempt_line "/posts/1" 1); Fetch "/posts/1";
                     Log AsyncAwait.retry_line]))).
Proof.
  split; [reflexivity|].
  apply (undecodable_body_is_a_failed_attempt garbled "/posts/1" 2 1 []
           (mkResponse true (Thrown "Unexpected token < in JSON")));
    reflexivity.
Defined.

(** X3. A larger budget changes nothing in a run that succeeds: when
    [retryFetch] fulfils the promise with a payload under a budget
    [retries], then under every budget [retries' >= retries] it performs the
    same effects and fulfils the promise with the same payload. *)
Theorem larger_budget_keeps_success
  (net : network) (url : string) (retries retries' : Z) :
  retries <= retries' ->
  (forall v, fst (PromiseChain.retryFetch net url retries) = Some (Fulfilled v) ->
             PromiseChain.retryFetch net url retries'
             = PromiseChain.retryFetch net url retries) /\
  (forall d, fst (AsyncAwait.retryFetch net url retries) = Fulfilled (Data d) ->
             AsyncAwait.retryFetch net url retries'
             = AsyncAwait.retryFetch net url retries).
Proof.
  intros Hle. split.
  - intros v Hv. unfold PromiseChain.retryFetch in *. simpl in Hv.
    now rewrite (chain_success_is_kept url net retries retries'
                   (Z.to_nat (retries - 1)) 1 [] v).
  - intros d Hd. unfold AsyncAwait.retryFetch in *.
    now apply (loop_success_is_kept url net retries retries'
                 (Z.to_nat (retries + 1 - 1)) 1 [] d).
Qed.

Lemma larger_budget_keeps_success_witness :
  fst (PromiseChain.retryFetch flaky "/posts/1" 3) = Some (Fulfilled (Data post)) /\
  fst (AsyncAwait.retryFetch flaky "/posts/1" 3) = Fulfilled (Data post) /\
  PromiseChain.retryFetch flaky "/posts/1" 7 = PromiseChain.retryFetch flaky "/posts/1" 3 /\
  AsyncAwait.retryFetch flaky "/posts/1" 7 = AsyncAwait.retryFetch flaky "/posts/1" 3.
Proof.
  split; [reflexivity|]. split; [reflexivity|].
  destruct (larger_budget_keeps_success flaky "/posts/1" 3 7) as [HP HA]; [lia|].
  split; [apply (HP (Data post)) | apply (HA post)]; reflexivity.
Defined.

(** X4. [retryFetch] never looks past its budget, nor at another resource:
    two networks that answer the first [max 1 retries] remote calls on [url]
    alike give the same run of the chaining version, and two networks that
    answer the first [retries] calls on [url] alike give the same run of the
    async/await version. *)
Theorem run_reads_only_the_budget
  (net net' : network) (url : string) (retries : Z) :
  ((forall i, (i < Z.to_nat (Z.max 1 retries))%nat -> net url i = net' url i) ->
   PromiseChain.retryFetch net url retries = PromiseChain.retryFetch net' url retries)
  /\
  ((forall i, (i < Z.to_nat retries)%nat -> net url i = net' url i) ->
   AsyncAwait.retryFetch net url retries = AsyncAwait.retryFetch net' url retries).
Proof.
  split; intros Hsame.
  - unfold PromiseChain.retryFetch.
    rewrite (chain_reads_within_budget url net net' retries
               (Z.to_nat (retries - 1)) 1 []); [reflexivity | reflexivity |].
    intros i Hi. apply Hsame. change (calls []) with 0%nat in Hi. lia.
  - unfold AsyncAwait.retryFetch.
    apply (loop_reads_within_budget url net net' retries
             (Z.to_nat (retries + 1 - 1)) 1 []); [reflexivity|].
    intros i Hi. apply Hsame. change (calls []) with 0%nat in Hi. lia.
Qed.

Lemma run_reads_only_the_budget_witness :
  (forall i, (i < Z.to_nat (Z.max 1 2))%nat ->
             flaky "/posts/1" i = unreachable "/posts/1" i) /\
  PromiseChain.retryFetch flaky "/posts/1" 2
  = PromiseChain.retryFetch unreachable "/posts/1" 2 /\
  AsyncAwait.retryFetch flaky "/posts/1" 2
  = AsyncAwait.retryFetch unreachable "/posts/1" 2.
Proof.
  assert (H : forall i, (i < Z.to_nat (Z.max 1 2))%nat ->
                        flaky "/posts/1" i = unreachable "/posts/1" i).
  { intros [|[|i]] Hi; try reflexivity. simpl in Hi. lia. }
  split; [exact H|].
  destruct (run_reads_only_the_budget flaky unreachable "/posts/1" 2) as [HP HA].
  split; [apply HP | apply HA]; exact H.
Defined.

Section Shape.

Variable net : network.
Variable url : string.
Variable retries : Z.

Lemma rounds_shift (round : Z -> nat -> trace) (a : Z) (j : nat) :
  (forall i, round a (S i) = round (a + 1) i) ->
  flat_map (round a) (seq 0 (S j)) = round a 0%nat ++ flat_map (round (a + 1)) (seq 0 j).
Proof.
  intros Hshift. simpl. f_equal.
  rewrite <- seq_shift, flat_map_concat_map, map_map, <- flat_map_concat_map.
  apply flat_map_ext. exact Hshift.
Qed.

Lemma chain_round_shift (a : Z) (i : nat) :
  chain_round url a (S i) = chain_round url (a + 1) i.
Proof. unfold chain_round. do 3 f_equal. lia. Qed.

Lemma loop_round_shift (a : Z) (i : nat) :
  loop_round url a (S i) = loop_round url (a + 1) i.
Proof. unfold loop_round. do 3 f_equal. lia. Qed.

Lemma calls_chain_rounds (a : Z) (j : nat) :
  calls (flat_map (chain_round url a) (seq 0 j)) = j.
Proof.
  revert a. induction j as [|j IH]; intros a; [reflexivity|].
  rewrite (rounds_shift (chain_round url)) by apply chain_round_shift.
  rewrite calls_app, IH. reflexivity.
Qed.

Lemma calls_loop_rounds (a : Z) (j : nat) :
  calls (flat_map (loop_round url a) (seq 0 j)) = j.
Proof.
  revert a. induction j as [|j IH]; intros a; [reflexivity|].
  rewrite (rounds_shift (loop_round url)) by apply loop_round_shift.
  rewrite calls_app, IH. reflexivity.
Qed.

(** What [attemptFetch] adds to the trace: failed rounds with consecutive
    counters, then one attempt and the settlement. *)
Lemma chain_shape (n : nat) : forall (a : Z) (t : trace),
  n = Z.to_nat (retries - a) ->
  exists j e,
    is_settlement e = true /\
    PromiseChain.attemptFetch net url retries a t
    = t ++ flat_map (chain_round url a) (seq 0 j)
        ++ [Log (PromiseChain.attempt_line url (a + Z.of_nat j)); Fetch url; e].
Proof.
  induction n as [|n IH]; intros a t Hn; rewrite PromiseChainFacts.attemptFetch_step;
    destruct (attempt_outcome (net url (calls t))) as [d|m].
  1, 3: exists 0%nat, (Resolve (Data d)); simpl; now rewrite Z.add_0_r.
  - replace (a <? retries) with false by (symmetry; apply Z.ltb_ge; lia).
    exists 0%nat, (Reject (PromiseChain.failure retries m)). simpl.
    now rewrite Z.add_0_r.
  - replace (a <? retries) with true by (symmetry; apply Z.ltb_lt; lia).
    destruct (IH (a + 1)
                (t ++ [Log (PromiseChain.attempt_line url a); Fetch url;
                       Log PromiseChain.retry_line])) as (j & e & He & Hrun); [lia|].
    exists (S j), e. split; [exact He|].
    rewrite Hrun, (rounds_shift (chain_round url)) by apply chain_round_shift.
    replace (a + Z.of_nat (S j)) with (a + 1 + Z.of_nat j) by lia.
    unfold chain_round at 2. simpl Z.of_nat. rewrite Z.add_0_r, <- !app_assoc.
    reflexivity.
Qed.

Lemma loop_shape (n : nat) : forall (a : Z) (t : trace),
  n = Z.to_nat (retries + 1 - a) -> a <= retries ->
  exists j,
    snd (AsyncAwait.loop net url retries a t)
    = t ++ flat_map (loop_round url a) (seq 0 j)
        ++ [Log (AsyncAwait.attempt_line url (a + Z.of_nat j)); Fetch url].
Proof.
  induction n as [|n IH]; intros a t Hn Hle; [lia|].
  rewrite AsyncAwaitFacts.loop_step.
  replace (a <=? retries) with true by (symmetry; apply Z.leb_le; lia).
  destruct (attempt_outcome (net url (calls t))) as [d|m].
  - exists 0%nat. simpl. now rewrite Z.add_0_r.
  - destruct (a =? retries) eqn:Heq.
    + exists 0%nat. simpl. now rewrite Z.add_0_r.
    + apply Z.eqb_neq in Heq.
      destruct (IH (a + 1)
                  (t ++ [Log (AsyncAwait.attempt_line url a); Fetch url;
                         Log AsyncAwait.retry_line])) as (j & Hrun); [lia | lia |].
      exists (S j).
      rewrite Hrun, (rounds_shift (loop_round url)) by apply loop_round_shift.
      replace (a + Z.of_nat (S j)) with (a + 1 + Z.of_nat j) by lia.
      unfold loop_round at 2. simpl Z.of_nat. rewrite Z.add_0_r, <- !app_assoc.
      reflexivity.
Qed.

End Shape.

(** X5. The attempts of a run are strictly sequential and numbered from 1:
    the effects of the chaining version are, for each failed attempt that is
    retried, its attempt line, one remote call on [url] and the retry line,
    then the last attempt line, the last remote call and, as the very last
    event, the only call of [resolve] or [reject]. The async/await version,
    for [retries >= 1], has the same shape and ends with the last remote
    call. *)
Theorem attempts_are_sequential (net : network) (url : string) (retries : Z) :
  (exists e,
     is_settlement e = true /\
     snd (PromiseChain.retryFetch net url retries)
     = flat_map (chain_round url 1)
         (seq 0 (calls (snd (PromiseChain.retryFetch net url retries)) - 1))
       ++ [Log (PromiseChain.attempt_line url
                  (Z.of_nat (calls (snd (PromiseChain.retryFetch net url retries)))));
           Fetch url; e]) /\
  (1 <= retries ->
   snd (AsyncAwait.retryFetch net url retries)
   = flat_map (loop_round url 1)
       (seq 0 (calls (snd (AsyncAwait.retryFetch net url retries)) - 1))
     ++ [Log (AsyncAwait.attempt_line url
                (Z.of_nat (calls (snd (AsyncAwait.retryFetch net url retries)))));
         Fetch url]).
Proof.
  split.
  - destruct (chain_shape net url retries (Z.to_nat (retries - 1)) 1 [] eq_refl)
      as (j & e & He & Hrun).
    exists e. split; [exact He|].
    assert (HT : snd (PromiseChain.retryFetch net url retries)
                 = flat_map (chain_round url 1) (seq 0 j)
                   ++ [Log (PromiseChain.attempt_line url (1 + Z.of_nat j));
                       Fetch url; e]) by exact Hrun.
    assert (Hc : calls (snd (PromiseChain.retryFetch net url retries)) = S j).
    { rewrite HT, calls_app, calls_chain_rounds.
      destruct e; try discriminate He; unfold calls; simpl; lia. }
    rewrite Hc. replace (S j - 1)%nat with j by lia.
    replace (Z.of_nat (S j)) with (1 + Z.of_nat j) by lia. exact HT.
  - intros Hpos.
    destruct (loop_shape net url retries (Z.to_nat (retries + 1 - 1)) 1 [] eq_refl)
      as (j & Hrun); [lia|].
    assert (HT : snd (AsyncAwait.retryFetch net url retries)
                 = flat_map (loop_round url 1) (seq 0 j)
                   ++ [Log (AsyncAwait.attempt_line url (1 + Z.of_nat j));
                       Fetch url]) by exact Hrun.
    assert (Hc : calls (snd (AsyncAwait.retryFetch net url retries)) = S j).
    { rewrite HT, calls_app, calls_loop_rounds. unfold calls; simpl; lia. }
    rewrite Hc. replace (S j - 1)%nat with j by lia.
    replace (Z.of_nat (S j)) with (1 + Z.of_nat j) by lia. exact HT.
Qed.

Lemma attempts_are_sequential_witness :
  (exists e,
     is_settlement e = true /\
     snd (PromiseChain.retryFetch flaky "/posts/1" 3)
     = flat_map (chain_round "/posts/1" 1)
         (seq 0 (calls (snd (PromiseChain.retryFetch flaky "/posts/1" 3)) - 1))
       ++ [Log (PromiseChain.attempt_line "/posts/1"
                  (Z.of_nat (calls (snd (PromiseChain.retryFetch flaky "/posts/1" 3)))));
           Fetch "/posts/1"; e]) /\
  (1 <= 3 ->
   snd (AsyncAwait.retryFetch flaky "/posts/1" 3)
   = flat_map (loop_round "/posts/1" 1)
       (seq 0 (calls (snd (AsyncAwait.retryFetch flaky "/posts/1" 3)) - 1))
     ++ [Log (AsyncAwait.attempt_line "/posts/1"
                (Z.of_nat (calls (snd (AsyncAwait.retryFetch flaky "/posts/1" 3)))));
         Fetch "/posts/1"]).
Proof. exact (attempts_are_sequential flaky "/posts/1" 3). Defined.

(** ** The callers of [retryFetch] *)

(** X6. Whatever the network answers, the promise-chaining caller of
    [retryFetch] makes between one and three remote calls, prints exactly one
    line when the run is over and leaves no rejection unhandled: the line is
    the success label with the payload of the first attempt that delivers
    one, or, the three attempts having failed, the rejection string itself,
    which carries the detail of the third attempt. *)
Theorem chained_caller_prints_once (net : network) :
  exists t out,
  Hard5.chained net = (t, out, Some (Fulfilled Undefined)) /\
  (1 <= calls t <= 3)%nat /\
  ((exists k d,
      (1 <= k <= 3)%nat /\
      (forall i, (1 <= i < k)%nat -> failed (attempt net Hard5.resource i)) /\
      attempt_outcome (attempt net Hard5.resource k) = Resolved d /\
      calls t = k /\
      out = [[PText "✅ HARD 5 Data fetched successfully:"; PValue (Data d)]])
   \/
   (exists m,
      (forall i, (1 <= i <= 3)%nat -> failed (attempt net Hard5.resource i)) /\
      attempt_outcome (attempt net Hard5.resource 3) = Thrown m /\
      calls t = 3%nat /\
      out = [[PText ("❌ Failed after 3 retries: " ++ m)%string]])).
Proof.
  unfold Hard5.chained.
  rewrite (surjective_pairing (PromiseChain.retryFetch net Hard5.resource 3)).
  destruct (retry_cases net Hard5.resource 3)
    as [(k & d & Hk & Hle & Hbefore & Hd) | (m & Hall & Hm)]; [lia | |].
  - destruct (promise_delivers net Hard5.resource 3 k d Hk Hle Hbefore Hd)
      as (H1 & _ & H3).
    rewrite H1. simpl then_print. simpl catch_print.
    eexists. eexists. split; [reflexivity|]. rewrite H3. split; [lia|].
    left. exists k, d. repeat split; try assumption; lia.
  - destruct (promise_exhausted net Hard5.resource 3 m) as (H1 & _ & H3);
      [lia | exact Hall | exact Hm |].
    rewrite H1. simpl then_print. simpl catch_print.
    eexists. eexists. split; [reflexivity|]. rewrite H3. split; [simpl; lia|].
    right. exists m. repeat split; try assumption.
    intros i Hi. apply Hall; lia.
Qed.

(** X7. Whatever the network answers, the async/await caller of [retryFetch]
    makes between one and three remote calls, prints exactly one line and
    never throws: the line is the success label with the payload of the
    first attempt that delivers one, or, the three attempts having failed,
    the error label followed by the message of the [Error], which carries
    the detail of the third attempt. *)
Theorem awaiting_caller_prints_once (net : network) :
  exists t out,
  Hard5.awaited_in_try net = (t, out, Fulfilled Undefined) /\
  (1 <= calls t <= 3)%nat /\
  ((exists k d,
      (1 <= k <= 3)%nat /\
      (forall i, (1 <= i < k)%nat -> failed (attempt net Hard5.resource i)) /\
      attempt_outcome (attempt net Hard5.resource k) = Resolved d /\
      calls t = k /\
      out = [[PText "✅ HARD 5 (async/await):"; PValue (Data d)]])
   \/
   (exists m,
      (forall i, (1 <= i <= 3)%nat -> failed (attempt net Hard5.resource i)) /\
      attempt_outcome (attempt net Hard5.resource 3) = Thrown m /\
      calls t = 3%nat /\
      out = [[PText "❌ HARD 5 Error:";
              PText ("Failed after 3 retries: " ++ m)%string]])).
Proof.
  unfold Hard5.awaited_in_try.
  rewrite (surjective_pairing (AsyncAwait.retryFetch net Hard5.resource 3)).
  destruct (retry_cases net Hard5.resource 3)
    as [(k & d & Hk & Hle & Hbefore & Hd) | (m & Hall & Hm)]; [lia | |].
  - destruct (async_delivers net Hard5.resource 3 k d Hk Hle Hbefore Hd)
      as (H1 & H3).
    rewrite H1.
    eexists. eexists. split; [reflexivity|]. rewrite H3. split; [lia|].
    left. exists k, d. repeat split; try assumption; lia.
  - destruct (async_exhausted net Hard5.resource 3 m) as (H1 & H3);
      [lia | exact Hall | exact Hm |].
    rewrite H1.
    eexists. eexists. split; [reflexivity|]. rewrite H3. split; [simpl; lia|].
    right. exists m. repeat split; try assumption.
    intros i Hi. apply Hall; lia.
Qed.

(** ** MEDIUM 3: the first five titles *)

Module Medium3Facts.
Import Medium3.

Lemma attempt_outcome_resolved (o : awaited response) (d : json) :
  attempt_outcome o = Resolved d ->
  exists r, o = Resolved r /\ ok r = true /\ body r = Resolved d.
Proof.
  destruct o as [r|m]; simpl; [|discriminate].
  destruct (ok r) eqn:Hok; [|discriminate].
  intros H. now exists r.
Qed.

(** The promise chain and the [try] block do the same, header apart. *)
Lemma chained_as_async (rt : runtime) (net : network) :
  chained rt net = medium3Async "✅ MEDIUM 3: First 5 post titles:" rt net.
Proof.
  unfold chained, medium3Async, fetch.
  destruct (net resource (calls [])) as [r|m]; simpl; [|reflexivity].
  destruct (ok r); simpl; [|reflexivity].
  now destruct (body r).
Qed.

Lemma print_titles_all (rt : runtime) (items : list json) (texts : list string) :
  Forall2 (prints rt) items texts ->
  forall index out,
    print_titles rt items index out
    = (Resolved tt, out ++ numbered (index + 1) texts).
Proof.
  induction 1 as [|post s items texts (title & Ht & Hs) _ IH]; intros index out.
  - simpl. now rewrite app_nil_r.
  - simpl. rewrite Ht, Hs, IH, <- app_assoc. reflexivity.
Qed.

Lemma print_titles_stop (rt : runtime) (good : list json) (texts : list string)
  (bad : json) (rest : list json) (m : string) :
  Forall2 (prints rt) good texts -> throws rt bad m ->
  forall index out,
    print_titles rt (good ++ bad :: rest) index out
    = (Thrown m, out ++ numbered (index + 1) texts).
Proof.
  intros Hgood Hbad.
  induction Hgood as [|post s items texts (title & Ht & Hs) _ IH]; intros index out.
  - simpl. rewrite app_nil_r.
    destruct Hbad as [Hb | (title & Hb & Hs)]; rewrite Hb; [reflexivity|].
    now rewrite Hs.
  - simpl. rewrite Ht, Hs, IH, <- app_assoc. reflexivity.
Qed.

(** Whatever the items are, the iteration prints consecutive numbered lines
    for some of the leading items and nothing else. *)
Lemma print_titles_shape (rt : runtime) (items : list json) :
  forall index out,
  exists texts,
    (List.length texts <= List.length items)%nat /\
    snd (print_titles rt items index out) = out ++ numbered (index + 1) texts /\
    (fst (print_titles rt items index out) = Resolved tt
     \/ exists m, fst (print_titles rt items index out) = Thrown m).
Proof.
  induction items as [|post rest IH]; intros index out; simpl.
  - exists []. simpl. rewrite app_nil_r. repeat split; auto.
  - destruct (title_of rt post) as [title|m].
    + destruct (to_text rt title) as [s|m].
      * destruct (IH (index + 1) (out ++ [title_line (index + 1) s]))
          as (texts & Hlen & Hout & Hres).
        exists (s :: texts). simpl. rewrite Hout, <- app_assoc.
        repeat split; [lia | exact Hres].
      * exists []. simpl. rewrite app_nil_r. repeat split; [lia | eauto].
    + exists []. simpl. rewrite app_nil_r. repeat split; [lia | eauto].
Qed.

End Medium3Facts.

(** X8. When the posts are served as an array and the titles of its first
    five elements print, the three MEDIUM 3 scripts make one remote call and
    print their header followed by the lines [1. title], [2. title], ... of
    the first five posts, in order, and nothing else: all the titles when
    there are fewer than five posts, none beyond the fifth otherwise. *)
Theorem first_five_titles_are_printed
  (rt : runtime) (net : network) (header : string)
  (items : list json) (texts : list string) :
  attempt_outcome (attempt net Medium3.resource 1) = Resolved (JArray items) ->
  Forall2 (Medium3.prints rt) (firstn 5 items) texts ->
  Medium3.chained rt net
  = ([Fetch Medium3.resource],
     [PText "✅ MEDIUM 3: First 5 post titles:"] :: Medium3.numbered 1 texts) /\
  Medium3.medium3Async header rt net
  = ([Fetch Medium3.resource], [PText header] :: Medium3.numbered 1 texts) /\
  List.length texts = Nat.min 5 (List.length items).
Proof.
  intros Hnet Htexts.
  apply Medium3Facts.attempt_outcome_resolved in Hnet.
  destruct Hnet as (r & Hr & Hok & Hbody). unfold attempt in Hr. simpl in Hr.
  assert (Hasync : forall h, Medium3.medium3Async h rt net
            = ([Fetch Medium3.resource], [PText h] :: Medium3.numbered 1 texts)).
  { intros h. unfold Medium3.medium3Async, fetch.
    change (calls []) with 0%nat. rewrite Hr, Hok, Hbody. simpl.
    now rewrite (Medium3Facts.print_titles_all rt _ _ Htexts). }
  split; [rewrite Medium3Facts.chained_as_async; apply Hasync|].
  split; [apply Hasync|].
  apply Forall2_length in Htexts. rewrite <- Htexts. apply length_firstn.
Qed.

Lemma first_five_titles_are_printed_witness :
  Forall2 (Medium3.prints sample_runtime)
    (firstn 5 [titled "a"; titled "b"; titled "c"; titled "d"; titled "e"; titled "f"])
    ["a"; "b"; "c"; "d"; "e"] /\
  Medium3.chained sample_runtime feed
  = ([Fetch Medium3.resource],
     [PText "✅ MEDIUM 3: First 5 post titles:"]
       :: Medium3.numbered 1 ["a"; "b"; "c"; "d"; "e"]) /\
  Medium3.medium3Async Medium3.day14_header sample_runtime feed
  = ([Fetch Medium3.resource],
     [PText Medium3.day14_header] :: Medium3.numbered 1 ["a"; "b"; "c"; "d"; "e"]) /\
  List.length ["a"; "b"; "c"; "d"; "e"]
  = Nat.min 5 (List.length [titled "a"; titled "b"; titled "c"; titled "d"; titled "e";
                       titled "f"]).
Proof.
  assert (H : Forall2 (Medium3.prints sample_runtime)
    (firstn 5 [titled "a"; titled "b"; titled "c"; titled "d"; titled "e"; titled "f"])
    ["a"; "b"; "c"; "d"; "e"]).
  { simpl. repeat constructor; eexists; split; reflexivity. }
  split; [exact H|].
  apply (first_five_titles_are_printed sample_runtime feed Medium3.day14_header
           [titled "a"; titled "b"; titled "c"; titled "d"; titled "e"; titled "f"]);
    [reflexivity | exact H].
Defined.

(** X9. The iteration stops at the first post whose title cannot be printed
    (a [null] element, or a title the template literal cannot convert): when
    it is among the first five, the lines of the posts before it stay printed,
    the error line with the message of what was thrown follows, and no later
    title is printed. *)
Theorem titles_stop_at_the_first_bad_post
  (rt : runtime) (net : network) (header : string)
  (good : list json) (bad : json) (rest : list json)
  (texts : list string) (m : string) :
  attempt_outcome (attempt net Medium3.resource 1)
  = Resolved (JArray (good ++ bad :: rest)) ->
  (List.length good < 5)%nat ->
  Forall2 (Medium3.prints rt) good texts ->
  Medium3.throws rt bad m ->
  Medium3.chained rt net
  = ([Fetch Medium3.resource],
     [PText "✅ MEDIUM 3: First 5 post titles:"] :: Medium3.numbered 1 texts
       ++ [Medium3.error_line m]) /\
  Medium3.medium3Async header rt net
  = ([Fetch Medium3.resource],
     [PText header] :: Medium3.numbered 1 texts ++ [Medium3.error_line m]).
Proof.
  intros Hnet Hlen Hgood Hbad.
  apply Medium3Facts.attempt_outcome_resolved in Hnet.
  destruct Hnet as (r & Hr & Hok & Hbody). unfold attempt in Hr. simpl in Hr.
  assert (Hfirst : firstn 5 (good ++ bad :: rest)
                   = good ++ bad :: firstn (4 - List.length good) rest).
  { rewrite firstn_app, firstn_all2 by lia.
    replace (5 - List.length good)%nat with (S (4 - List.length good)) by lia.
    reflexivity. }
  assert (Hasync : forall h, Medium3.medium3Async h rt net
            = ([Fetch Medium3.resource],
               [PText h] :: Medium3.numbered 1 texts ++ [Medium3.error_line m])).
  { intros h. unfold Medium3.medium3Async, fetch.
    change (calls []) with 0%nat. rewrite Hr, Hok, Hbody. simpl negb. cbv iota.
    unfold Medium3.first_five. rewrite Hfirst.
    now rewrite (Medium3Facts.print_titles_stop rt _ _ _ _ _ Hgood Hbad). }
  split; [rewrite Medium3Facts.chained_as_async|]; apply Hasync.
Qed.

Lemma titles_stop_at_the_first_bad_post_witness :
  Forall2 (Medium3.prints sample_runtime) [titled "a"] ["a"] /\
  Medium3.throws sample_runtime JNull (property_of_null sample_runtime) /\
  Medium3.chained sample_runtime broken_feed
  = ([Fetch Medium3.resource],
     [PText "✅ MEDIUM 3: First 5 post titles:"] :: Medium3.numbered 1 ["a"]
       ++ [Medium3.error_line (property_of_null sample_runtime)]) /\
  Medium3.medium3Async Medium3.day13_header sample_runtime broken_feed
  = ([Fetch Medium3.resource],
     [PText Medium3.day13_header] :: Medium3.numbered 1 ["a"]
       ++ [Medium3.error_line (property_of_null sample_runtime)]).
Proof.
  assert (H : Forall2 (Medium3.prints sample_runtime) [titled "a"] ["a"]).
  { repeat constructor; eexists; split; reflexivity. }
  assert (Hbad : Medium3.throws sample_runtime JNull (property_of_null sample_runtime)).
  { left. reflexivity. }
  split; [exact H|]. split; [exact Hbad|].
  apply (titles_stop_at_the_first_bad_post sample_runtime broken_feed
           Medium3.day13_header [titled "a"] JNull [titled "c"]);
    [reflexivity | simpl; lia | exact H | exact Hbad].
Defined.

(** X10. Whatever the server answers and whatever the runtime makes of the
    data, a MEDIUM 3 script makes exactly one remote call and prints either
    the error line alone (the request failed: no header) or its header, then
    at most five title lines numbered from 1, then at most one error line,
    which is the last line. *)
Theorem at_most_five_titles (rt : runtime) (net : network) (header : string) :
  fst (Medium3.chained rt net) = [Fetch Medium3.resource] /\
  fst (Medium3.medium3Async header rt net) = [Fetch Medium3.resource] /\
  (forall h,
     (exists m, snd (Medium3.medium3Async h rt net) = [Medium3.error_line m]) \/
     (exists texts tail,
        (List.length texts <= 5)%nat /\
        (tail = [] \/ exists m, tail = [Medium3.error_line m]) /\
        snd (Medium3.medium3Async h rt net)
        = [PText h] :: Medium3.numbered 1 texts ++ tail)) /\
  snd (Medium3.chained rt net)
  = snd (Medium3.medium3Async "✅ MEDIUM 3: First 5 post titles:" rt net).
Proof.
  assert (Hcalls : forall h,
            fst (Medium3.medium3Async h rt net) = [Fetch Medium3.resource]).
  { intros h. unfold Medium3.medium3Async, fetch.
    destruct (net Medium3.resource (calls [])) as [r|m]; [|reflexivity].
    destruct (ok r); simpl; [|reflexivity].
    destruct (body r) as [posts|m]; [|reflexivity].
    now destruct (Medium3.first_five rt posts _) as [[[]|m] out]. }
  split; [rewrite Medium3Facts.chained_as_async; apply Hcalls|].
  split; [apply Hcalls|].
  split; [|now rewrite Medium3Facts.chained_as_async].
  intros h. unfold Medium3.medium3Async, fetch.
  destruct (net Medium3.resource (calls [])) as [r|m]; [|left; now exists m].
  destruct (ok r); simpl; [|left; eauto].
  destruct (body r) as [posts|m]; [|left; now exists m].
  right. destruct posts as [|b|n|s|items|members].
  1-4, 6: eexists [], [_]; (split; [simpl; lia|]);
    (split; [right; eexists; reflexivity|]); reflexivity.
  unfold Medium3.first_five.
  destruct (Medium3Facts.print_titles_shape rt (firstn 5 items) 0 [[PText h]])
    as (texts & Hlen & Hout & Hres).
  rewrite length_firstn in Hlen.
  destruct (Medium3.print_titles rt (firstn 5 items) 0 [[PText h]]) as [res out].
  simpl in Hout, Hres. subst out.
  destruct Hres as [-> | (m & ->)].
  - exists texts, []. rewrite app_nil_r. repeat split; [lia | now left].
  - exists texts, [Medium3.error_line m]. repeat split; [lia | right; eauto].
Qed.

(** ** Day 15: closures *)

Section Calls.

Context {S R : Type}.

(** When the captured variables run through [g 0], [g 1], ... and the call
    made at [g k] returns [out (k + 1)], so do [n] calls in a row. *)
Lemma call_n_iterates (f : closure S R) (g : nat -> S) (out : nat -> R) :
  (forall k, f (g k) = (out (Datatypes.S k), g (Datatypes.S k))) ->
  forall n k, call_n f n (g k) = (map out (seq (Datatypes.S k) n), g (k + n)%nat).
Proof.
  intros Hstep. induction n as [|n IH]; intros k; simpl.
  - now rewrite Nat.add_0_r.
  - rewrite Hstep, IH. do 2 f_equal. lia.
Qed.

Lemma call_each_app {M : Type} (object : M -> closure S R) (ms ms' : list M) (s : S) :
  Closures.call_each object (ms ++ ms') s
  = (fst (Closures.call_each object ms s)
       ++ fst (Closures.call_each object ms' (snd (Closures.call_each object ms s))),
     snd (Closures.call_each object ms' (snd (Closures.call_each object ms s)))).
Proof.
  revert s. induction ms as [|m ms IH]; intros s; simpl.
  - now destruct (Closures.call_each object ms' s).
  - destruct (object m s) as [r s1]. rewrite IH.
    destruct (Closures.call_each object ms s1) as [rs s2]. simpl.
    now destruct (Closures.call_each object ms' s2).
Qed.

Lemma call_each_repeat {M : Type} (object : M -> closure S R) (m : M) (n : nat) (s : S) :
  Closures.call_each object (repeat m n) s = call_n (object m) n s.
Proof.
  revert s. induction n as [|n IH]; intros s; simpl; [reflexivity|].
  destruct (object m s) as [r s1]. now rewrite IH.
Qed.

End Calls.

(** X11. The counter made by [createMaxCounter(max)] counts 1, 2, ... up to
    [max] and then stays there: its n-th call returns the smaller of [n] and
    [max]. When [max] is zero or negative it returns 0 for ever, which for a
    negative [max] lies above the bound. *)
Theorem max_counter_stops_at_max (max : Z) (n : nat) :
  call_n (Closures.createMaxCounter max) n Closures.fresh_count
  = (map (fun i => Z.max 0 (Z.min (Z.of_nat i) max)) (seq 1 n),
     Z.max 0 (Z.min (Z.of_nat n) max)).
Proof.
  assert (H : forall k : nat,
            Closures.createMaxCounter max (Z.max 0 (Z.min (Z.of_nat k) max))
            = (Z.max 0 (Z.min (Z.of_nat (Datatypes.S k)) max),
               Z.max 0 (Z.min (Z.of_nat (Datatypes.S k)) max))).
  { intros k. unfold Closures.createMaxCounter.
    destruct (Z.ltb_spec (Z.max 0 (Z.min (Z.of_nat k) max)) max);
      f_equal; lia. }
  replace Closures.fresh_count with (Z.max 0 (Z.min (Z.of_nat 0) max))
    by (unfold Closures.fresh_count; lia).
  exact (call_n_iterates (Closures.createMaxCounter max)
           (fun k => Z.max 0 (Z.min (Z.of_nat k) max))
           (fun i => Z.max 0 (Z.min (Z.of_nat i) max)) H n 0%nat).
Qed.



(** Two additions that round: with the step 2^53 - 1 the third call of the
    step counter returns a neighbour of three times the step, and an
    increment followed by a decrement from 2^53 ends one below. *)
Example rounded_steps :
  fst (call_n (Closures.createStepCounter (2 ^ 53 - 1)) 3 Closures.fresh_count)
  = [9007199254740991; 18014398509481982; 27021597764222972]
  /\ fst (Closures.call_each (Closures.useCounter (Some (2 ^ 53)) (Some 1))
            [Closures.incC; Closures.decC]
            (Closures.useCounter_initial (Some (2 ^ 53))))
     = [9007199254740992; 9007199254740991].
Proof. split; reflexivity. Qed.



(** X13. [reset] forgets the history of a resettable counter: whatever calls
    of [inc] and [reset] came before, after a [reset] the next [n] calls of
    [inc] return 1, 2, ..., [n]. *)
Theorem reset_forgets_the_history
  (before : list Closures.resettable_method) (n : nat) :
  fst (Closures.call_each Closures.createResettableCounter
         (repeat Closures.inc n)
         (snd (Closures.call_each Closures.createResettableCounter
                 (before ++ [Closures.reset]) Closures.fresh_count)))
  = map Z.of_nat (seq 1 n).
Proof.
  rewrite call_each_app, call_each_repeat. simpl snd.
  change 0 with (Z.of_nat 0).
  assert (H : forall k : nat,
              Closures.createResettableCounter Closures.inc (Z.of_nat k)
              = (Z.of_nat (Datatypes.S k), Z.of_nat (Datatypes.S k))).
  { intros k. simpl. f_equal; lia. }
  now rewrite (call_n_iterates (Closures.createResettableCounter Closures.inc)
                 Z.of_nat Z.of_nat H n 0%nat).
Qed.






(** X15. The state of [useToggle(initial)] after [n] calls of [toggle] is
    [initial] when [n] is even and its negation when [n] is odd, [initial]
    being [false] when it is left out; each call returns the new state. *)
Theorem toggle_follows_parity (initial : option bool) (n : nat) :
  call_n Closures.toggle n (Closures.useToggle_initial initial)
  = (map (fun i => xorb (Closures.useToggle_initial initial) (Nat.odd i)) (seq 1 n),
     xorb (Closures.useToggle_initial initial) (Nat.odd n)).
Proof.
  set (s0 := Closures.useToggle_initial initial).
  assert (H : forall k : nat,
            Closures.toggle (xorb s0 (Nat.odd k))
            = (xorb s0 (Nat.odd (Datatypes.S k)), xorb s0 (Nat.odd (Datatypes.S k)))).
  { intros k. unfold Closures.toggle.
    rewrite Nat.odd_succ, <- Nat.negb_odd.
    destruct s0, (Nat.odd k); reflexivity. }
  replace s0 with (xorb s0 (Nat.odd 0)) at 1 by (destruct s0; reflexivity).
  exact (call_n_iterates Closures.toggle (fun k => xorb s0 (Nat.odd k))
           (fun i => xorb s0 (Nat.odd i)) H n 0%nat).
Qed.

Lemma use_once_spent {A W R : Type} (fn : A -> W -> awaited R * W)
  (later : list A) (w : W) :
  Closures.call_with (Closures.useOnce fn) later (true, w)
  = (map (fun _ => Resolved None) later, (true, w)).
Proof.
  induction later as [|a later IH]; simpl; [reflexivity|]. now rewrite IH.
Qed.

(** X16. The function made by [useOnce(fn)] runs [fn] exactly once, on the
    arguments of its first call, and returns what [fn] returns; every later
    call returns [undefined] and leaves the world as it is. This also holds
    when [fn] throws at the first call: the error is passed on and [fn] is
    not tried again. *)
Theorem use_once_runs_fn_once {A W R : Type} (fn : A -> W -> awaited R * W)
  (first : A) (later : list A) (w : W) :
  Closures.call_with (Closures.useOnce fn) (first :: later) (false, w)
  = (match fst (fn first w) with
     | Resolved r => Resolved (Some r)
     | Thrown m => Thrown m
     end :: map (fun _ => Resolved None) later,
     (true, snd (fn first w))).
Proof.
  simpl. destruct (fn first w) as [[r|m] w']; now rewrite use_once_spent.
Qed.

Section Heap.

Context {V : Type}.

Lemma length_update (h : Closures.heap V) (a : nat) (l : list V) :
  List.length (Closures.update h a l) = List.length h.
Proof.
  revert a. induction h as [|x h IH]; intros [|a]; simpl; auto.
Qed.

Lemma contents_update_same (h : Closures.heap V) (a : nat) (l : list V) :
  (a < List.length h)%nat -> Closures.contents (Closures.update h a l) a = l.
Proof.
  unfold Closures.contents.
  revert a. induction h as [|x h IH]; intros [|a] Ha; simpl in *; try lia.
  - reflexivity.
  - apply IH. lia.
Qed.

Lemma contents_update_other (h : Closures.heap V) (a b : nat) (l : list V) :
  a <> b -> Closures.contents (Closures.update h a l) b = Closures.contents h b.
Proof.
  unfold Closures.contents.
  revert a b. induction h as [|x h IH]; intros [|a] [|b] Hab; simpl; try reflexivity.
  - contradiction.
  - apply IH. congruence.
Qed.

Lemma update_update (h : Closures.heap V) (a : nat) (l l' : list V) :
  Closures.update (Closures.update h a l) a l' = Closures.update h a l'.
Proof.
  revert a. induction h as [|x h IH]; intros [|a]; simpl; try reflexivity.
  now rewrite IH.
Qed.

Lemma update_contents (h : Closures.heap V) (a : nat) :
  Closures.update h a (Closures.contents h a) = h.
Proof.
  unfold Closures.contents.
  revert a. induction h as [|x h IH]; intros [|a]; simpl; try reflexivity.
  now rewrite IH.
Qed.

Lemma contents_allocate_old (h : Closures.heap V) (l : list V) (a : nat) :
  (a < List.length h)%nat ->
  Closures.contents (snd (Closures.allocate h l)) a = Closures.contents h a.
Proof. intros Ha. unfold Closures.contents. simpl. now apply app_nth1. Qed.

Lemma contents_allocate_new (h : Closures.heap V) (l : list V) :
  Closures.contents (snd (Closures.allocate h l)) (fst (Closures.allocate h l)) = l.
Proof. unfold Closures.contents. simpl. apply nth_middle. Qed.

(** One call of a function of the hook keeps the hook's array apart from the
    arrays that were there before the hook. *)
Lemma array_hook_keeps_older (h0 : Closures.heap V) (m : Closures.array_method V)
  (arr : nat) (h : Closures.heap V) :
  (List.length h0 <= arr < List.length h)%nat ->
  (forall a, (a < List.length h0)%nat ->
             Closures.contents h a = Closures.contents h0 a) ->
  let s := snd (Closures.array_hook m (arr, h)) in
  (List.length h0 <= fst s < List.length (snd s))%nat /\
  (forall a, (a < List.length h0)%nat ->
             Closures.contents (snd s) a = Closures.contents h0 a).
Proof.
  intros Harr Hold. destruct m as [|item| |]; simpl.
  - now split.
  - rewrite length_update. split; [exact Harr|].
    intros a Ha. rewrite contents_update_other by lia. now apply Hold.
  - destruct (rev (Closures.contents h arr)) as [|v before]; simpl.
    + now split.
    + rewrite length_update. split; [exact Harr|].
      intros a Ha. rewrite contents_update_other by lia. now apply Hold.
  - rewrite length_app. simpl. split; [lia|].
    intros a Ha. unfold Closures.contents. rewrite app_nth1 by lia. now apply Hold.
Qed.

End Heap.

(** X17. The array of [useArray(initial)] is the hook's own: it starts with
    the elements of [initial] (none when [initial] is left out) in a new
    array, and whatever functions of the hook are called afterwards, the
    array passed as [initial] and every other array that existed before keep
    their elements. *)
Theorem hook_array_is_a_copy {V : Type} (h0 : Closures.heap V)
  (initial : option nat) (ms : list (Closures.array_method V)) :
  Closures.contents (snd (Closures.useArray initial h0))
    (fst (Closures.useArray initial h0))
  = match initial with Some a => Closures.contents h0 a | None => [] end /\
  (List.length h0 <= fst (Closures.useArray initial h0))%nat /\
  forall a, (a < List.length h0)%nat ->
    Closures.contents
      (snd (snd (Closures.call_each Closures.array_hook ms
                   (Closures.useArray initial h0)))) a
    = Closures.contents h0 a.
Proof.
  assert (Hnew :
    (List.length h0 <= fst (Closures.useArray initial h0)
                     < List.length (snd (Closures.useArray initial h0)))%nat /\
    (forall a, (a < List.length h0)%nat ->
       Closures.contents (snd (Closures.useArray initial h0)) a
       = Closures.contents h0 a)).
  { unfold Closures.useArray. destruct initial as [i|]; simpl.
    - rewrite length_app. simpl. split; [lia|].
      intros a Ha. unfold Closures.contents. now rewrite app_nth1 by lia.
    - rewrite !length_app. simpl. split; [lia|].
      intros a Ha. unfold Closures.contents.
      rewrite app_nth1 by (rewrite length_app; simpl; lia).
      now rewrite app_nth1 by lia. }
  split; [|split; [lia|]].
  - unfold Closures.useArray. destruct initial as [i|]; simpl.
    + unfold Closures.contents at 1. now rewrite nth_middle.
    + unfold Closures.contents at 1. rewrite nth_middle.
      unfold Closures.contents. now rewrite nth_middle.
  - destruct Hnew as [Harr Hold].
    destruct (Closures.useArray initial h0) as [arr h]. simpl in Harr, Hold.
    revert arr h Harr Hold.
    induction ms as [|m ms IH]; intros arr h Harr Hold a Ha.
    + now apply Hold.
    + change (Closures.call_each Closures.array_hook (m :: ms) (arr, h))
        with (let (r, s1) := Closures.array_hook m (arr, h) in
              let (rs, s2) := Closures.call_each Closures.array_hook ms s1 in
              (r :: rs, s2)).
      destruct (array_hook_keeps_older h0 m arr h Harr Hold) as [Harr' Hold'].
      destruct (Closures.array_hook m (arr, h)) as [r [arr' h']].
      simpl in Harr', Hold'.
      specialize (IH arr' h' Harr' Hold' a Ha).
      now destruct (Closures.call_each Closures.array_hook ms (arr', h')).
Qed.

(** X18. On the array of the hook, pushing an item and popping gives the
    item back and leaves the array, and the whole heap, as it was; the push
    returns the new length, and popping from an empty array returns
    [undefined] and changes nothing. *)
Theorem push_then_pop_restores {V : Type} (arr : nat) (h : Closures.heap V)
  (item : V) :
  (arr < List.length h)%nat ->
  Closures.call_each Closures.array_hook
    [Closures.pushArr item; Closures.popArr] (arr, h)
  = ([Closures.ALength (Datatypes.S (List.length (Closures.contents h arr)));
      Closures.AnItem item],
     (arr, h)) /\
  (Closures.contents h arr = [] ->
   Closures.array_hook Closures.popArr (arr, h) = (Closures.NoItem, (arr, h))).
Proof.
  intros Harr. split.
  - simpl. rewrite contents_update_same by exact Harr.
    rewrite rev_unit, rev_involutive, update_update, update_contents.
    rewrite length_app. simpl. do 3 f_equal. lia.
  - intros Hempty. simpl. now rewrite Hempty.
Qed.

Lemma push_then_pop_restores_witness :
  (1 < List.length [[10; 20]; [1; 2]])%nat /\
  Closures.call_each Closures.array_hook
    [Closures.pushArr 3; Closures.popArr] (1%nat, [[10; 20]; [1; 2]])
  = ([Closures.ALength (Datatypes.S (List.length
                          (Closures.contents [[10; 20]; [1; 2]] 1)));
      Closures.AnItem 3],
     (1%nat, [[10; 20]; [1; 2]])) /\
  (Closures.contents [[10; 20]; [1; 2]] 1 = [] ->
   Closures.array_hook Closures.popArr (1%nat, [[10; 20]; [1; 2]])
   = (Closures.NoItem, (1%nat, [[10; 20]; [1; 2]]))).
Proof.
  split; [simpl; lia|].
  apply (push_then_pop_restores 1%nat [[10; 20]; [1; 2]] 3). simpl. lia.
Defined.

(** X19. The getter of [useArray] hands out the hook's array itself, not a
    copy: an item pushed afterwards is seen through it. The clear function
    does not empty that array: it makes the hook use a new, empty one, and the
    array handed out before keeps its elements. *)
Theorem getter_hands_out_the_live_array {V : Type} (arr : nat)
  (h : Closures.heap V) (item : V) :
  (arr < List.length h)%nat ->
  (exists h',
     Closures.call_each Closures.array_hook
       [Closures.getArr; Closures.pushArr item] (arr, h)
     = ([Closures.AnArray arr;
         Closures.ALength (Datatypes.S (List.length (Closures.contents h arr)))],
        (arr, h')) /\
     Closures.contents h' arr = Closures.contents h arr ++ [item]) /\
  (exists fresh h',
     Closures.call_each Closures.array_hook
       [Closures.getArr; Closures.clearArr; Closures.getArr] (arr, h)
     = ([Closures.AnArray arr; Closures.AnArray fresh; Closures.AnArray fresh],
        (fresh, h')) /\
     fresh <> arr /\
     Closures.contents h' fresh = [] /\
     Closures.contents h' arr = Closures.contents h arr).
Proof.
  intros Harr. split.
  - eexists. split.
    + simpl. rewrite length_app. simpl.
      replace (List.length (Closures.contents h arr) + 1)%nat
        with (Datatypes.S (List.length (Closures.contents h arr))) by lia.
      reflexivity.
    + now apply contents_update_same.
  - exists (List.length h), (h ++ [[]]). split; [reflexivity|].
    split; [lia|]. split.
    + unfold Closures.contents. apply nth_middle.
    + unfold Closures.contents. now apply app_nth1.
Qed.

Lemma getter_hands_out_the_live_array_witness :
  (1 < List.length [[10; 20]; [1; 2]])%nat /\
  (exists h',
     Closures.call_each Closures.array_hook
       [Closures.getArr; Closures.pushArr 3] (1%nat, [[10; 20]; [1; 2]])
     = ([Closures.AnArray 1;
         Closures.ALength (Datatypes.S (List.length
                             (Closures.contents [[10; 20]; [1; 2]] 1)))],
        (1%nat, h')) /\
     Closures.contents h' 1 = Closures.contents [[10; 20]; [1; 2]] 1 ++ [3]) /\
  (exists fresh h',
     Closures.call_each Closures.array_hook
       [Closures.getArr; Closures.clearArr; Closures.getArr]
       (1%nat, [[10; 20]; [1; 2]])
     = ([Closures.AnArray 1; Closures.AnArray fresh; Closures.AnArray fresh],
        (fresh, h')) /\
     fresh <> 1%nat /\
     Closures.contents h' fresh = [] /\
     Closures.contents h' 1 = Closures.contents [[10; 20]; [1; 2]] 1).
Proof.
  split; [simpl; lia|].
  apply (getter_hands_out_the_live_array 1%nat [[10; 20]; [1; 2]] 3). simpl. lia.
Defined.
